(** * RCN Lead Gen API: the quota-gated search pipeline

    A shallow embedding of the HTTP server of the repository (the version
    with accounts and quotas): [getUser], [verifyToken], the [/auth/login],
    [/auth/me] and [/search] handlers, with the JavaScript builtins they
    rely on ([parseInt], [Math.min], [Array.prototype.slice], number
    arithmetic with [NaN] and [Infinity]); then the registration, the
    request listener and [enc].

    The datastore is a finite map from account id to row; the provider, the
    token verifier, the password hash and the two clocks ([new Date()] in
    the process, [CURRENT_DATE] in the datastore) are collaborators passed
    in a record. Handlers run in a state-and-exception monad whose state
    holds the table, the log of provider calls and the error console.

    Modelling choices:
    - integers of the handlers ([searches_used], plan limits, the parsed
      [limit]) are [Z], with [NaN] and the infinities beside them; numbers
      of the provider payloads (coordinates, ratings) are doubles;
    - provider replies are typed by the fields the handler reads, a
      missing field being [None]; a reply that does not parse, or a
      transport failure, is a rejected promise;
    - [pool.query] always resolves, and the [INTEGER] column does not
      overflow;
    - the detail lookups of [Promise.all] are issued in the order of the
      candidates; since each one catches its own failure, running them
      one after the other gives the same leads and the same call log;
    - the earlier, quota-less variant of the server ([server.js]) has the
      same pipeline without accounts; its [/search] is [Legacy.search]. *)

From Stdlib Require Import ZArith Floats Ascii.
From stdpp Require Import gmap strings list pretty.

Open Scope Z_scope.

(** ** JavaScript builtins *)

Module JS.

(** Numbers as the handlers meet them. Finite values are integers: the
    [INTEGER] column, the plan limits and the results of [parseInt]; they
    are exact as doubles within the safe range (magnitude below 2^53). *)
Inductive number : Type :=
| NaN
| PosInf
| NegInf
| Fin (z : Z).

(** [a + b] *)
Definition add (a b : number) : number :=
  match a, b with
  | NaN, _ | _, NaN => NaN
  | PosInf, NegInf | NegInf, PosInf => NaN
  | PosInf, _ | _, PosInf => PosInf
  | NegInf, _ | _, NegInf => NegInf
  | Fin x, Fin y => Fin (x + y)
  end.

(** [- a] *)
Definition neg (a : number) : number :=
  match a with
  | NaN => NaN
  | PosInf => NegInf
  | NegInf => PosInf
  | Fin x => Fin (- x)
  end.

(** [a - b] *)
Definition sub (a b : number) : number := add a (neg b).

(** [a > b]: false as soon as one side is [NaN]. *)
Definition gt (a b : number) : bool :=
  match a, b with
  | NaN, _ | _, NaN => false
  | PosInf, PosInf => false
  | PosInf, _ => true
  | _, PosInf => false
  | NegInf, _ => false
  | Fin _, NegInf => true
  | Fin x, Fin y => bool_decide (y < x)
  end.

(** [Math.min(a, b)] *)
Definition min (a b : number) : number :=
  match a, b with
  | NaN, _ | _, NaN => NaN
  | NegInf, _ | _, NegInf => NegInf
  | PosInf, x | x, PosInf => x
  | Fin x, Fin y => Fin (Z.min x y)
  end.

(** The values the response bodies carry besides strings: a number,
    [null], or [undefined] (a missing property). *)
Inductive value : Type :=
| Undefined
| Null
| Num (n : number).

(** [ToNumber(v)] *)
Definition to_number (v : value) : number :=
  match v with
  | Undefined => NaN
  | Null => Fin 0
  | Num n => n
  end.

(** [v === Infinity] *)
Definition is_Infinity (v : value) : bool :=
  match v with
  | Num PosInf => true
  | _ => false
  end.

(** [String(n)], as a template literal prints it. *)
Definition to_string (n : number) : string :=
  match n with
  | NaN => "NaN"
  | PosInf => "Infinity"
  | NegInf => "-Infinity"
  | Fin z => pretty z
  end.

(** White space skipped by [parseInt] and removed by [trim] (the ASCII
    part of it). *)
Definition is_space (c : ascii) : bool :=
  let n := nat_of_ascii c in
  bool_decide (n = 32%nat) || (bool_decide (9 <= n)%nat && bool_decide (n <= 13)%nat).

Fixpoint trim_start (s : string) : string :=
  match s with
  | String c r => if is_space c then trim_start r else s
  | EmptyString => EmptyString
  end.

(** Value of a digit in the given radix, if it is one. *)
Definition digit_value (radix : Z) (c : ascii) : option Z :=
  let n := Z.of_nat (nat_of_ascii c) in
  let v :=
    if bool_decide (48 <= n <= 57) then Some (n - 48)
    else if bool_decide (97 <= n <= 122) then Some (n - 87)
    else if bool_decide (65 <= n <= 90) then Some (n - 55)
    else None in
  match v with
  | Some d => if bool_decide (d < radix) then Some d else None
  | None => None
  end.

(** The longest prefix of digits, read in the radix; [None] when the
    string does not start with a digit. *)
Fixpoint read_digits (radix : Z) (acc : option Z) (s : string) : option Z :=
  match s with
  | String c r =>
      match digit_value radix c with
      | Some d => read_digits radix (Some (radix * default 0 acc + d)) r
      | None => acc
      end
  | EmptyString => acc
  end.

(** [parseInt(s)] with no radix argument: leading white space, a sign, a
    [0x] prefix for hexadecimal, then the longest prefix of digits;
    [NaN] when there is none. *)
Definition parseInt (s : string) : number :=
  let s1 := trim_start s in
  let '(negative, s2) :=
    match s1 with
    | String "-" r => (true, r)
    | String "+" r => (false, r)
    | _ => (false, s1)
    end in
  let '(radix, s3) :=
    match s2 with
    | String "0" (String "x" r) | String "0" (String "X" r) => (16, r)
    | _ => (10, s2)
    end in
  match read_digits radix None s3 with
  | Some z => Fin (if negative then - z else z)
  | None => NaN
  end.

(** [l.slice(0, e)]: the end is [ToIntegerOrInfinity(e)], counted from the
    end of the list when negative, and clamped to the list. *)
Definition slice0 {A : Type} (l : list A) (e : number) : list A :=
  let len := Z.of_nat (length l) in
  let final :=
    match e with
    | NaN => 0
    | PosInf => len
    | NegInf => 0
    | Fin z => if bool_decide (z < 0) then Z.max (len + z) 0 else Z.min z len
    end in
  take (Z.to_nat final) l.

(** The left operand of [a || b] when it is kept: a string that is
    neither missing nor empty. *)
Definition truthy_string (v : option string) : option string :=
  match v with
  | Some EmptyString => None
  | _ => v
  end.

(** [a || b] with a string default. *)
Definition or_string (a : option string) (b : string) : string :=
  default b (truthy_string a).

(** The left operand of [a || null] on a number from a parsed payload:
    [0] and [NaN] are falsy. *)
Definition truthy_float (v : option float) : option float :=
  match v with
  | Some f => if (PrimFloat.eqb f 0 || PrimFloat.is_nan f)%bool then None else Some f
  | None => None
  end.

(** [s.toLowerCase()] (ASCII letters). *)
Definition lower_char (c : ascii) : ascii :=
  let n := nat_of_ascii c in
  if (bool_decide (65 <= n)%nat && bool_decide (n <= 90)%nat)%bool
  then ascii_of_nat (n + 32) else c.

Fixpoint toLowerCase (s : string) : string :=
  match s with
  | String c r => String (lower_char c) (toLowerCase r)
  | EmptyString => EmptyString
  end.

(** [s.trim()] *)
Definition trim_end (s : string) : string :=
  String.rev (trim_start (String.rev s)).

Definition trim (s : string) : string := trim_end (trim_start s).

(** [s.replace(pat, "")]: the first occurrence of [pat] is removed. *)
Fixpoint remove_first (pat s : string) : string :=
  if String.prefix pat s then String.substring (String.length pat) (String.length s - String.length pat) s
  else match s with
       | String c r => String c (remove_first pat r)
       | EmptyString => EmptyString
       end.

End JS.


(** ** Data model *)

(** A calendar date, as the [DATE] column stores it and as [new Date()]
    reads the local clock. *)
Record date : Type := { year : Z; month : Z; day : Z }.

Definition getFullYear (d : date) : Z := year d.

(** [getMonth()] counts months from 0. *)
Definition getMonth (d : date) : Z := month d - 1.

(** A row of the [users] table, without its key ([id]); [created_at] is
    never read and is left out. *)
Record row : Type := {
  r_email : string;
  r_password_hash : string;
  r_plan : string;
  r_searches_used : Z;
  r_searches_reset_date : date;
}.

(** The row object [res.rows[0]] the handlers hold and mutate. *)
Record user : Type := {
  id : Z;
  email : string;
  password_hash : string;
  plan : string;
  searches_used : Z;
  searches_reset_date : date;
}.

Definition user_of_row (i : Z) (r : row) : user :=
  {| id := i; email := r_email r; password_hash := r_password_hash r;
     plan := r_plan r; searches_used := r_searches_used r;
     searches_reset_date := r_searches_reset_date r |}.

(** [user.searches_used = n] *)
Definition set_searches_used (u : user) (n : Z) : user :=
  {| id := id u; email := email u; password_hash := password_hash u;
     plan := plan u; searches_used := n;
     searches_reset_date := searches_reset_date u |}.

(** [PLAN_LIMITS[plan]]: [undefined] for a plan that is not in the table
    (names inherited from [Object.prototype] are not modelled). *)
Definition PLAN_LIMITS (plan : string) : JS.value :=
  if decide (plan = "pro") then JS.Num (JS.Fin 1000)
  else if decide (plan = "agency") then JS.Num (JS.Fin 2400)
  else if decide (plan = "unlimited") then JS.Num JS.PosInf
  else if decide (plan = "admin") then JS.Num JS.PosInf
  else JS.Undefined.

(** A thrown value: an [Error] with its message and the rest of what
    [console.error] prints (name, stack). *)
Record error : Type := { message : string; stack : string }.

(** A settled promise. *)
Inductive outcome (A : Type) : Type :=
| Resolved (a : A)
| Rejected (e : error).
Arguments Resolved {A} a.
Arguments Rejected {A} e.

(** *** Provider payloads, typed by the fields the handler reads *)

Module Geo.
(** [results[i].geometry.location] *)
Record location : Type := { lat : float; lng : float }.
Record payload : Type := { results : option (list location) }.
End Geo.

Module Place.
Record t : Type := {
  name : option string;
  formatted_address : option string;
  place_id : option string;
  rating : option float;
}.
Record payload : Type := { results : option (list t) }.
End Place.

Module Detail.
Record t : Type := {
  formatted_address : option string;
  formatted_phone_number : option string;
  website : option string;
}.
Record payload : Type := { result : option t }.
End Detail.

(** An entry of the [results] array of a 200 response. [None] in
    [businessName] and [placeId] is [undefined], in the others [null]. *)
Module Lead.
Record t : Type := {
  businessName : option string;
  address : string;
  phone : option string;
  website : option string;
  placeId : option string;
  rating : option float;
}.
End Lead.

(** An outbound provider request, by endpoint and the values spliced into
    its path. *)
Inductive call : Type :=
| Geocode (address : string)
| TextSearch (query : string) (lat lng : float)
| PlaceDetails (place_id : option string).

(** *** Requests and responses *)

Module Req.
(** The [authorization] header and the query parameters
    ([url.searchParams.get], [None] for [null]). *)
Record t : Type := {
  authorization : option string;
  type : option string;
  location : option string;
  limit : option string;
  details : option string;
}.
End Req.

(** The object given to [respond]. *)
Inductive body : Type :=
| ErrorBody (error : string)
| QuotaBody (error : string) (searches_used searches_remaining limit : JS.value)
    (plan : string)
| SearchBody (results : list Lead.t) (searches_used searches_remaining limit : JS.value)
| UserBody (token : option string) (id : Z) (email plan : string)
    (searches_used searches_remaining limit : JS.value).

Record response : Type := { status : Z; payload : body }.

Definition respond (code : Z) (obj : body) : response :=
  {| status := code; payload := obj |}.

(** ** Collaborators and state *)

(** What the handlers do not own: the token and password primitives, the
    two clocks, and the provider's reply to each call (the reply to a
    detail lookup may depend on the position of the candidate). *)
Record world : Type := {
  jwt_verify : string -> option Z;
  jwt_sign : Z -> string -> string;
  bcrypt_compare : string -> string -> bool;
  now : date;
  CURRENT_DATE : date;
  geocode_reply : string -> outcome Geo.payload;
  textsearch_reply : string -> float -> float -> outcome Place.payload;
  details_reply : nat -> option string -> outcome Detail.payload;
}.

Record state : Type := {
  users : gmap Z row;
  calls : list call;
  console : list error;
}.

Definition set_users (f : gmap Z row -> gmap Z row) (st : state) : state :=
  {| users := f (users st); calls := calls st; console := console st |}.

(** An [async] computation: it runs on the state and settles. The store is
    taken as reliable: [pool.query] always resolves. *)
Definition async (A : Type) : Type := state -> outcome A * state.

#[global] Instance async_ret : MRet async :=
  fun A a st => (Resolved a, st).

#[global] Instance async_bind : MBind async :=
  fun A B k m st =>
    match m st with
    | (Resolved a, st') => k a st'
    | (Rejected e, st') => (Rejected e, st')
    end.

(** [try { body } catch (e) { handler }] *)
Definition try_catch {A : Type} (body : async A) (handler : error -> async A) : async A :=
  fun st =>
    match body st with
    | (Resolved a, st') => (Resolved a, st')
    | (Rejected e, st') => handler e st'
    end.

(** [console.error(e)] *)
Definition console_error (e : error) : async unit :=
  fun st => (Resolved (), {| users := users st; calls := calls st; console := console st ++ [e] |}).

(** [googleGet(path)]: the call is issued, then the promise settles as the
    provider replies. *)
Definition googleGet {A : Type} (c : call) (reply : outcome A) : async A :=
  fun st => (reply, {| users := users st; calls := calls st ++ [c]; console := console st |}).

(** ** The account store *)

(** [SELECT * FROM users WHERE id = $1], then [res.rows[0]]. *)
Definition select_by_id (userId : Z) : async (option user) :=
  fun st => (Resolved (user_of_row userId <$> users st !! userId), st).

(** [SELECT * FROM users WHERE email = $1], then [result.rows[0]]. *)
Definition select_by_email (e : string) : async (option user) :=
  fun st =>
    (Resolved (head (omap (fun '(i, r) => if decide (r_email r = e) then Some (user_of_row i r) else None)
                          (map_to_list (users st)))), st).

(** [UPDATE users SET searches_used = 0, searches_reset_date = CURRENT_DATE
    WHERE id = $1] *)
Definition reset_row (today : date) (r : row) : row :=
  {| r_email := r_email r; r_password_hash := r_password_hash r; r_plan := r_plan r;
     r_searches_used := 0; r_searches_reset_date := today |}.

Definition update_reset (w : world) (userId : Z) : async unit :=
  fun st => (Resolved (), set_users (alter (reset_row (CURRENT_DATE w)) userId) st).

(** [UPDATE users SET searches_used = searches_used + $1 WHERE id = $2] *)
Definition debit_row (count : Z) (r : row) : row :=
  {| r_email := r_email r; r_password_hash := r_password_hash r; r_plan := r_plan r;
     r_searches_used := r_searches_used r + count;
     r_searches_reset_date := r_searches_reset_date r |}.

Definition update_usage (count : Z) (userId : Z) : async unit :=
  fun st => (Resolved (), set_users (alter (debit_row count) userId) st).

(** The rollover test of [getUser] and of the login handler:
    [now.getFullYear() > resetDate.getFullYear() ||
     now.getMonth() > resetDate.getMonth()]. *)
Definition reset_due (now resetDate : date) : bool :=
  bool_decide (getFullYear now > getFullYear resetDate)
  || bool_decide (getMonth now > getMonth resetDate).

Definition getUser (w : world) (userId : Z) : async (option user) :=
  res ← select_by_id userId;
  match res with
  | None => mret None
  | Some user =>
      if reset_due (now w) (searches_reset_date user) then
        _ ← update_reset w userId;
        mret (Some (set_searches_used user 0))
      else mret (Some user)
  end.

(** ** Handlers *)

Definition verifyToken (w : world) (req : Req.t) : option Z :=
  let auth := JS.or_string (Req.authorization req) "" in
  let token := JS.trim (JS.remove_first "Bearer " auth) in
  if decide (token = "") then None else jwt_verify w token.

(** The [user] object of the [/auth/login] and [/auth/me] responses. *)
Definition user_body (token : option string) (u : user) : body :=
  let limit := PLAN_LIMITS (plan u) in
  UserBody token (id u) (email u) (plan u)
    (JS.Num (JS.Fin (searches_used u)))
    (if JS.is_Infinity limit then JS.Null
     else JS.Num (JS.sub (JS.to_number limit) (JS.Fin (searches_used u))))
    (if JS.is_Infinity limit then JS.Null else limit).

(** [POST /auth/login]; [req_email] and [req_password] are the [email]
    and [password] of the parsed body. *)
Definition login (w : world) (req_email req_password : option string) : async response :=
  match JS.truthy_string req_email, JS.truthy_string req_password with
  | Some addr, Some pw =>
      try_catch
        (result ← select_by_email (JS.trim (JS.toLowerCase addr));
         match result with
         | None => mret (respond 401 (ErrorBody "Invalid email or password"))
         | Some user =>
             if negb (bcrypt_compare w pw (password_hash user))
             then mret (respond 401 (ErrorBody "Invalid email or password"))
             else
               user ← (if reset_due (now w) (searches_reset_date user) then
                          _ ← update_reset w (id user);
                          mret (set_searches_used user 0)
                        else mret user);
               let token := jwt_sign w (id user) (email user) in
               mret (respond 200 (user_body (Some token) user))
         end)
        (fun e => _ ← console_error e; mret (respond 500 (ErrorBody "Login failed")))
  | _, _ => mret (respond 400 (ErrorBody "Email and password required"))
  end.

(** [GET /auth/me] *)
Definition me (w : world) (req : Req.t) : async response :=
  match verifyToken w req with
  | None => mret (respond 401 (ErrorBody "Unauthorized"))
  | Some decoded =>
      try_catch
        (user ← getUser w decoded;
         match user with
         | None => mret (respond 404 (ErrorBody "User not found"))
         | Some user => mret (respond 200 (user_body None user))
         end)
        (fun e => _ ← console_error e; mret (respond 500 (ErrorBody "Failed to get user")))
  end.

(** *** [/search] *)

(** [Math.min(parseInt(url.searchParams.get("limit") || "10"), 25)] *)
Definition clamp_limit (param : option string) : JS.number :=
  JS.min (JS.parseInt (JS.or_string param "10")) (JS.Fin 25).

(** The rejection test of the handler:
    [planLimit !== Infinity && user.searches_used + limit > planLimit]. *)
Definition quota_exceeded (planLimit : JS.value) (used : Z) (limit : JS.number) : bool :=
  negb (JS.is_Infinity planLimit)
  && JS.gt (JS.add (JS.Fin used) limit) (JS.to_number planLimit).

(** The lead built when no detail is available: in the [catch] branch of
    the enrichment and when [details] is off. *)
Definition summary (p : Place.t) : Lead.t :=
  {| Lead.businessName := Place.name p;
     Lead.address := JS.or_string (Place.formatted_address p) "";
     Lead.phone := None;
     Lead.website := None;
     Lead.placeId := Place.place_id p;
     Lead.rating := JS.truthy_float (Place.rating p) |}.

(** The lead built from a detail reply [d]; [d.result?.f] is [undefined]
    when [d.result] is missing. *)
Definition enriched (p : Place.t) (d : Detail.payload) : Lead.t :=
  let field (f : Detail.t -> option string) := Detail.result d ≫= f in
  {| Lead.businessName := Place.name p;
     Lead.address :=
       default (JS.or_string (Place.formatted_address p) "")
               (JS.truthy_string (field Detail.formatted_address));
     Lead.phone := JS.truthy_string (field Detail.formatted_phone_number);
     Lead.website := JS.truthy_string (field Detail.website);
     Lead.placeId := Place.place_id p;
     Lead.rating := JS.truthy_float (Place.rating p) |}.

(** The callback of [places.map]: one detail lookup inside its own
    [try]/[catch]. [i] is the position of the candidate. *)
Definition enrich_one (w : world) (i : nat) (p : Place.t) : async Lead.t :=
  try_catch
    (d ← googleGet (PlaceDetails (Place.place_id p)) (details_reply w i (Place.place_id p));
     mret (enriched p d))
    (fun _ => mret (summary p)).

(** [Promise.all(places.map(...))]: the lookups are issued in the order of
    the candidates and the leads come back in that order. *)
Fixpoint enrich_from (w : world) (i : nat) (places : list Place.t) : async (list Lead.t) :=
  match places with
  | [] => mret []
  | p :: ps =>
      l ← enrich_one w i p;
      ls ← enrich_from w (S i) ps;
      mret (l :: ls)
  end.

(** The 200 response: [newUsed], [remaining] and the body given to
    [respond] after the debit. *)
Definition success_response (planLimit : JS.value) (used actualCount : Z)
    (detailed : list Lead.t) : response :=
  let newUsed := JS.add (JS.Fin used) (JS.Fin actualCount) in
  let remaining :=
    if JS.is_Infinity planLimit then JS.Null
    else JS.Num (JS.sub (JS.to_number planLimit) newUsed) in
  respond 200
    (SearchBody detailed (JS.Num newUsed) remaining
       (if JS.is_Infinity planLimit then JS.Null else planLimit)).

(** The 403 response of a rejected request. *)
Definition quota_response (planLimit : JS.value) (user : user) : response :=
  let remaining := JS.sub (JS.to_number planLimit) (JS.Fin (searches_used user)) in
  respond 403
    (QuotaBody
       ("You only have " +:+ JS.to_string remaining
        +:+ " searches left this month. Reduce your lead count or upgrade your plan.")
       (JS.Num (JS.Fin (searches_used user))) (JS.Num remaining) planLimit
       (plan user)).

(** The body of the handler after admission: geocode, text search,
    enrichment, debit, response. *)
Definition search_pipeline (w : world) (type location : string) (limit : JS.number)
    (details : bool) (user : user) : async response :=
  let planLimit := PLAN_LIMITS (plan user) in
  geoData ← googleGet (Geocode location) (geocode_reply w location);
  match head (default [] (Geo.results geoData)) with
  | None => mret (respond 404 (ErrorBody "Location not found"))
  | Some loc =>
      placesData ← googleGet (TextSearch type (Geo.lat loc) (Geo.lng loc))
                     (textsearch_reply w type (Geo.lat loc) (Geo.lng loc));
      let places := JS.slice0 (default [] (Place.results placesData)) limit in
      let actualCount := Z.of_nat (length places) in
      detailed ← (if details then enrich_from w 0 places
                  else mret (summary <$> places));
      _ ← update_usage actualCount (id user);
      mret (success_response planLimit (searches_used user) actualCount detailed)
  end.

(** The body of the handler once the account is loaded: the quota check,
    then the pipeline. *)
Definition search_as (w : world) (type location : string) (limit : JS.number)
    (details : bool) (user : user) : async response :=
  let planLimit := PLAN_LIMITS (plan user) in
  if quota_exceeded planLimit (searches_used user) limit
  then mret (quota_response planLimit user)
  else search_pipeline w type location limit details user.

Definition search (w : world) (req : Req.t) : async response :=
  match verifyToken w req with
  | None => mret (respond 401 (ErrorBody "Unauthorized — please log in"))
  | Some decoded =>
      let type := JS.or_string (Req.type req) "" in
      let location := JS.or_string (Req.location req) "" in
      let limit := clamp_limit (Req.limit req) in
      let details := negb (bool_decide (Req.details req = Some "false")) in
      try_catch
        (user ← getUser w decoded;
         match user with
         | None => mret (respond 401 (ErrorBody "User not found"))
         | Some user => search_as w type location limit details user
         end)
        (fun err => _ ← console_error err; mret (respond 500 (ErrorBody (message err))))
  end.

(** *** Observations *)

(** The stored usage counter of an account. *)
Definition stored_used (st : state) (userId : Z) : option Z :=
  r_searches_used <$> users st !! userId.

(** The state after a handler logged the provider calls [cs]. *)
Definition log_calls (cs : list call) (st : state) : state :=
  {| users := users st; calls := calls st ++ cs; console := console st |}.

(** The state after the top-level [catch] of [/search] printed [e]. *)
Definition log_error (e : error) (st : state) : state :=
  {| users := users st; calls := calls st; console := console st ++ [e] |}.

(** ** Specification-side definitions *)

(** The rollover rule in the words of the specification: the current
    (year, month) is strictly greater than the stored one, in
    lexicographic order. *)
Definition month_advanced (now resetDate : date) : Prop :=
  year now > year resetDate
  \/ (year now = year resetDate /\ month now > month resetDate).

(** What a read by [getUser] does to the table: the lazy reset of the
    account read, nothing else. *)
Definition lazy_reset (w : world) (userId : Z) (t : gmap Z row) : gmap Z row :=
  match t !! userId with
  | Some r =>
      if reset_due (now w) (r_searches_reset_date r)
      then alter (reset_row (CURRENT_DATE w)) userId t
      else t
  | None => t
  end.

(** The object [getUser] returns for a table. *)
Definition read_user (w : world) (userId : Z) (t : gmap Z row) : option user :=
  (fun r =>
     let u := user_of_row userId r in
     if reset_due (now w) (r_searches_reset_date r) then set_searches_used u 0 else u)
  <$> t !! userId.

(** What the handler reads from an account: its key, plan and counter. *)
Definition same_account (a b : option user) : Prop :=
  match a, b with
  | Some u, Some u' =>
      id u = id u' /\ plan u = plan u' /\ searches_used u = searches_used u'
  | None, None => True
  | _, _ => False
  end.

(** The table as the reads of a [/search] request leave it, before any
    debit. *)
Definition table_after_read (w : world) (req : Req.t) (t : gmap Z row) : gmap Z row :=
  match verifyToken w req with
  | Some userId => lazy_reset w userId t
  | None => t
  end.

(** The lead of the candidate at position [i] when enrichment is on:
    degraded to its summary when its detail lookup fails. *)
Definition lead_at (w : world) (i : nat) (p : Place.t) : Lead.t :=
  match details_reply w i (Place.place_id p) with
  | Resolved d => enriched p d
  | Rejected _ => summary p
  end.

Fixpoint leads_from (w : world) (i : nat) (places : list Place.t) : list Lead.t :=
  match places with
  | [] => []
  | p :: ps => lead_at w i p :: leads_from w (S i) ps
  end.

(** The leads of a request, by the [details] flag. *)
Definition leads_of (w : world) (details : bool) (places : list Place.t) : list Lead.t :=
  if details then leads_from w 0 places else summary <$> places.

Definition detail_calls (places : list Place.t) : list call :=
  (fun p => PlaceDetails (Place.place_id p)) <$> places.

(** The parameters of a [/search] request as the handler reads them. *)
Definition type_of (req : Req.t) : string := JS.or_string (Req.type req) "".
Definition location_of (req : Req.t) : string := JS.or_string (Req.location req) "".
Definition limit_of (req : Req.t) : JS.number := clamp_limit (Req.limit req).
Definition details_of (req : Req.t) : bool :=
  negb (bool_decide (Req.details req = Some "false")).

(** A request that passed authentication, account load and the quota
    check: [u] is the account as [getUser] returned it. *)
Definition admitted (w : world) (req : Req.t) (st : state) (userId : Z) (u : user) : Prop :=
  verifyToken w req = Some userId
  /\ read_user w userId (users st) = Some u
  /\ quota_exceeded (PLAN_LIMITS (plan u)) (searches_used u) (limit_of req) = false.

(** The terminal states of a [/search] request: the response sent and
    the state left, one constructor per way through the handler. *)
Inductive search_path (w : world) (req : Req.t) (st : state) : response -> state -> Prop :=
| path_unauthorized :
    verifyToken w req = None ->
    search_path w req st (respond 401 (ErrorBody "Unauthorized — please log in")) st
| path_no_account userId :
    verifyToken w req = Some userId ->
    read_user w userId (users st) = None ->
    search_path w req st (respond 401 (ErrorBody "User not found"))
      (set_users (lazy_reset w userId) st)
| path_quota userId u :
    verifyToken w req = Some userId ->
    read_user w userId (users st) = Some u ->
    quota_exceeded (PLAN_LIMITS (plan u)) (searches_used u) (limit_of req) = true ->
    search_path w req st (quota_response (PLAN_LIMITS (plan u)) u)
      (set_users (lazy_reset w userId) st)
| path_geocode_failed userId u e :
    admitted w req st userId u ->
    geocode_reply w (location_of req) = Rejected e ->
    search_path w req st (respond 500 (ErrorBody (message e)))
      (log_error e (log_calls [Geocode (location_of req)]
                      (set_users (lazy_reset w userId) st)))
| path_location_not_found userId u geoData :
    admitted w req st userId u ->
    geocode_reply w (location_of req) = Resolved geoData ->
    head (default [] (Geo.results geoData)) = None ->
    search_path w req st (respond 404 (ErrorBody "Location not found"))
      (log_calls [Geocode (location_of req)] (set_users (lazy_reset w userId) st))
| path_textsearch_failed userId u geoData loc e :
    admitted w req st userId u ->
    geocode_reply w (location_of req) = Resolved geoData ->
    head (default [] (Geo.results geoData)) = Some loc ->
    textsearch_reply w (type_of req) (Geo.lat loc) (Geo.lng loc) = Rejected e ->
    search_path w req st (respond 500 (ErrorBody (message e)))
      (log_error e
         (log_calls [Geocode (location_of req);
                     TextSearch (type_of req) (Geo.lat loc) (Geo.lng loc)]
            (set_users (lazy_reset w userId) st)))
| path_success userId u geoData loc placesData :
    admitted w req st userId u ->
    geocode_reply w (location_of req) = Resolved geoData ->
    head (default [] (Geo.results geoData)) = Some loc ->
    textsearch_reply w (type_of req) (Geo.lat loc) (Geo.lng loc) = Resolved placesData ->
    let places := JS.slice0 (default [] (Place.results placesData)) (limit_of req) in
    let n := Z.of_nat (length places) in
    search_path w req st
      (success_response (PLAN_LIMITS (plan u)) (searches_used u) n
         (leads_of w (details_of req) places))
      (set_users (alter (debit_row n) (id u))
         (log_calls ([Geocode (location_of req);
                      TextSearch (type_of req) (Geo.lat loc) (Geo.lng loc)]
                     ++ (if details_of req then detail_calls places else []))
            (set_users (lazy_reset w userId) st))).

(** The plans with a finite monthly limit, and the plans without. *)
Definition bounded_limit (p : string) (L : Z) : Prop :=
  (p = "pro" /\ L = 1000) \/ (p = "agency" /\ L = 2400).

Definition unbounded (p : string) : Prop := p = "unlimited" \/ p = "admin".

(** ** Sample data *)

Module Sample.

Definition enotfound : error :=
  {| message := "getaddrinfo ENOTFOUND maps.googleapis.com";
     stack := "Error: getaddrinfo ENOTFOUND maps.googleapis.com at GetAddrInfoReqWrap.onlookup" |}.

Definition ace : Place.t :=
  {| Place.name := Some "Ace Plumbing"; Place.formatted_address := Some "1 Main St";
     Place.place_id := Some "pA"; Place.rating := Some 4.5%float |}.

Definition best : Place.t :=
  {| Place.name := Some "Best Pipes"; Place.formatted_address := Some "2 Oak Ave";
     Place.place_id := Some "pB"; Place.rating := None |}.

Definition city : Place.t :=
  {| Place.name := Some "City Drains"; Place.formatted_address := None;
     Place.place_id := Some "pC"; Place.rating := Some 3%float |}.

Definition detail : Detail.payload :=
  {| Detail.result :=
       Some {| Detail.formatted_address := Some "1 Main Street, Austin, TX";
               Detail.formatted_phone_number := Some "(512) 555-0100";
               Detail.website := Some "https://example.com" |} |}.

Definition feb3 : date := {| year := 2024; month := 2; day := 3 |}.

(** A provider that knows Austin, finds three plumbers there and fails
    the detail lookup of the second candidate; token [tok7] belongs to
    account 7. Both clocks read 3 February 2024. *)
Definition austin : world :=
  {| jwt_verify := fun t => if decide (t = "tok7") then Some 7 else None;
     jwt_sign := fun i _ => "tok" +:+ pretty i;
     bcrypt_compare := fun pw h => bool_decide (h = "h:" +:+ pw);
     now := feb3;
     CURRENT_DATE := feb3;
     geocode_reply := fun a =>
       if decide (a = "Austin")
       then Resolved {| Geo.results := Some [ {| Geo.lat := 30.25%float; Geo.lng := (-97.75)%float |} ] |}
       else Resolved {| Geo.results := Some [] |};
     textsearch_reply := fun _ _ _ => Resolved {| Place.results := Some [ace; best; city] |};
     details_reply := fun i _ =>
       if decide (i = 1%nat) then Rejected enotfound else Resolved detail |}.

(** The same, with the network down. *)
Definition offline : world :=
  {| jwt_verify := jwt_verify austin;
     jwt_sign := jwt_sign austin;
     bcrypt_compare := bcrypt_compare austin;
     now := feb3;
     CURRENT_DATE := feb3;
     geocode_reply := fun _ => Rejected enotfound;
     textsearch_reply := fun _ _ _ => Rejected enotfound;
     details_reply := fun _ _ => Rejected enotfound |}.

(** The process clock reads 31 December 2024 while the store already
    reads 1 January 2025 (a store in a time zone ahead of the process). *)
Definition new_year : world :=
  {| jwt_verify := jwt_verify austin;
     jwt_sign := jwt_sign austin;
     bcrypt_compare := bcrypt_compare austin;
     now := {| year := 2024; month := 12; day := 31 |};
     CURRENT_DATE := {| year := 2025; month := 1; day := 1 |};
     geocode_reply := geocode_reply austin;
     textsearch_reply := textsearch_reply austin;
     details_reply := details_reply austin |}.

Definition account (plan : string) (used : Z) (since : date) : row :=
  {| r_email := "a@b.co"; r_password_hash := "h:secret12"; r_plan := plan;
     r_searches_used := used; r_searches_reset_date := since |}.

Definition table (r : row) : state :=
  {| users := {[ 7 := r ]}; calls := []; console := [] |}.

Definition no_accounts : state :=
  {| users := ∅; calls := []; console := [] |}.

Definition request (location limit : string) : Req.t :=
  {| Req.authorization := Some "Bearer tok7"; Req.type := Some "plumber";
     Req.location := Some location; Req.limit := Some limit; Req.details := None |}.

End Sample.

(** ** The rest of the server *)

(** *** Text builtins of the registration and of the provider paths *)

Module Text.

(** A string holds the UTF-8 bytes of its text. [s.length] counts UTF-16
    code units: none for a continuation byte, two for the first byte of a
    character of four bytes, one for any other byte. *)
Definition units (c : ascii) : nat :=
  let n := nat_of_ascii c in
  if bool_decide (128 <= n < 192)%nat then 0%nat
  else if bool_decide (240 <= n)%nat then 2%nat
  else 1%nat.

Fixpoint utf16_length (s : string) : nat :=
  match s with
  | String c r => (units c + utf16_length r)%nat
  | EmptyString => 0%nat
  end.

(** A character the class [[^\s@]] matches (white space in its ASCII
    part, as for [trim]). *)
Definition plain (c : ascii) : bool :=
  negb (JS.is_space c) && negb (bool_decide (c = "@"%char)).

Fixpoint all_plain (s : string) : bool :=
  match s with
  | String c r => plain c && all_plain r
  | EmptyString => true
  end.

(** The text before and the text after the first ["@"]. *)
Fixpoint split_at (s : string) : option (string * string) :=
  match s with
  | EmptyString => None
  | String c r =>
      if bool_decide (c = "@"%char) then Some (EmptyString, r)
      else match split_at r with
           | Some (a, b) => Some (String c a, b)
           | None => None
           end
  end.

(** Some ["."] of the string has text after it. *)
Fixpoint dot_before_end (s : string) : bool :=
  match s with
  | String c r =>
      (bool_decide (c = "."%char) && negb (bool_decide (r = EmptyString)))
      || dot_before_end r
  | EmptyString => false
  end.

(** Some ["."] of the string has text before it and text after it. *)
Definition inner_dot (s : string) : bool :=
  match s with
  | String _ r => dot_before_end r
  | EmptyString => false
  end.

(** [/^[^\s@]+@[^\s@]+\.[^\s@]+$/.test(s)]: the first class cannot cross
    an ["@"], so the ["@"] of the pattern is the first one of the string;
    what follows it is made of plain characters with an inner ["."]. *)
Definition email_test (s : string) : bool :=
  match split_at s with
  | Some (a, b) =>
      negb (bool_decide (a = EmptyString)) && all_plain a && all_plain b && inner_dot b
  | None => false
  end.

(** The characters [encodeURIComponent] leaves as they are: letters,
    digits and [- _ . ! ~ * ' ( )]. *)
Definition unreserved (c : ascii) : bool :=
  let n := nat_of_ascii c in
  (bool_decide (48 <= n <= 57)%nat || bool_decide (65 <= n <= 90)%nat
   || bool_decide (97 <= n <= 122)%nat)
  || bool_decide (c ∈ ["-"; "_"; "."; "!"; "~"; "*"; "'"; "("; ")"]%char).

Definition hex_digit (n : nat) : ascii :=
  if bool_decide (n < 10)%nat then ascii_of_nat (48 + n) else ascii_of_nat (55 + n).

(** [%XX], in upper-case hexadecimal. *)
Definition percent (c : ascii) : string :=
  let n := nat_of_ascii c in
  String "%" (String (hex_digit (n / 16)) (String (hex_digit (n mod 16)) EmptyString)).

(** [encodeURIComponent(s)]: every byte that is not unreserved is
    percent-encoded. *)
Fixpoint encodeURIComponent (s : string) : string :=
  match s with
  | String c r =>
      (if unreserved c then String c EmptyString else percent c) +:+ encodeURIComponent r
  | EmptyString => EmptyString
  end.

End Text.

Definition enc (s : string) : string := Text.encodeURIComponent s.

(** The path of the geocode call, for the API key of the process. *)
Definition geocode_path (GOOGLE_API_KEY location : string) : string :=
  "/maps/api/geocode/json?address=" +:+ enc location +:+ "&key=" +:+ GOOGLE_API_KEY.

(** *** [/auth/register] *)

(** What the registration needs beyond [world]: the password hash
    ([bcrypt.hash(password, 12)]) and the value the [SERIAL] sequence of
    [id] delivers to this insertion. *)
Record registrar : Type := {
  bcrypt_hash : string -> string;
  nextval : Z;
}.

(** The row [INSERT INTO users (email, password_hash, plan) VALUES ($1,
    $2, 'pro')] creates, with the defaults of the table. *)
Definition new_row (w : world) (e h : string) : row :=
  {| r_email := e; r_password_hash := h; r_plan := "pro";
     r_searches_used := 0; r_searches_reset_date := CURRENT_DATE w |}.

(** Some row of the table carries the email. *)
Definition email_taken (e : string) (t : gmap Z row) : bool :=
  existsb (fun ir : Z * row => bool_decide (r_email ir.2 = e)) (map_to_list t).

(** The insertion with [RETURNING]. It is rejected with code [23505]
    (unique violation) when the email is taken ([email TEXT UNIQUE]) or
    the key exists ([id SERIAL PRIMARY KEY]); [None] stands for that
    rejection, the only one the handler tells apart. *)
Definition insert_user (w : world) (k : registrar) (e h : string) : async (option user) :=
  fun st =>
    if email_taken e (users st) || bool_decide (is_Some (users st !! nextval k))
    then (Resolved None, st)
    else (Resolved (Some (user_of_row (nextval k) (new_row w e h))),
          set_users (insert (nextval k) (new_row w e h)) st).

(** [POST /auth/register]; [req_email] and [req_password] are the [email]
    and [password] of the parsed body. *)
Definition register (w : world) (k : registrar) (req_email req_password : option string)
    : async response :=
  match JS.truthy_string req_email, JS.truthy_string req_password with
  | Some addr, Some pw =>
      if bool_decide (Text.utf16_length pw < 8)%nat
      then mret (respond 400 (ErrorBody "Password must be at least 8 characters"))
      else if negb (Text.email_test addr)
      then mret (respond 400 (ErrorBody "Invalid email address"))
      else
        let hash := bcrypt_hash k pw in
        result ← insert_user w k (JS.trim (JS.toLowerCase addr)) hash;
        match result with
        | Some user =>
            let limit := PLAN_LIMITS (plan user) in
            let token := jwt_sign w (id user) (email user) in
            mret (respond 201
                    (UserBody (Some token) (id user) (email user) (plan user)
                       (JS.Num (JS.Fin 0)) limit limit))
        | None =>
            mret (respond 409 (ErrorBody "An account with this email already exists"))
        end
  | _, _ => mret (respond 400 (ErrorBody "Email and password required"))
  end.

(** *** The request listener *)

Module Http.

(** A request: method, [url.pathname], the header and query parameters
    the handlers read, and the [email] and [password] of its parsed body. *)
Record request : Type := {
  method : string;
  pathname : string;
  query : Req.t;
  body_email : option string;
  body_password : option string;
}.

(** What is written to the socket: the bodiless 200 of a preflight, the
    liveness payload [{status: "ok", service: "RCN Lead Gen API"}], or
    the JSON response of a handler. *)
Inductive reply : Type :=
| Preflight
| Liveness
| Json (r : response).

Definition code (r : reply) : Z :=
  match r with
  | Preflight => 200
  | Liveness => 200
  | Json r => status r
  end.

(** The callback of [http.createServer]. *)
Definition listener (w : world) (k : registrar) (rq : request) : async reply :=
  if decide (method rq = "OPTIONS") then mret Preflight
  else if decide (pathname rq = "/") then mret Liveness
  else if decide (pathname rq = "/auth/register" /\ method rq = "POST") then
    r ← register w k (body_email rq) (body_password rq); mret (Json r)
  else if decide (pathname rq = "/auth/login" /\ method rq = "POST") then
    r ← login w (body_email rq) (body_password rq); mret (Json r)
  else if decide (pathname rq = "/auth/me" /\ method rq = "GET") then
    r ← me w (query rq); mret (Json r)
  else if decide (pathname rq = "/search") then
    r ← search w (query rq); mret (Json r)
  else mret (Json (respond 404 (ErrorBody "Not found"))).

End Http.

(** *** The server without accounts ([server.js]) *)

Module Legacy.

(** The object given to [respond]: [{results}] or [{error}]. *)
Inductive body : Type :=
| Results (results : list Lead.t)
| Error (error : string).

Record response : Type := { status : Z; payload : body }.

(** The [/search] branch of the listener: no token, no account, no
    ceiling on [limit], and nothing printed by the [catch]. *)
Definition search (w : world) (req : Req.t) : async response :=
  let type := JS.or_string (Req.type req) "" in
  let location := JS.or_string (Req.location req) "" in
  let limit := JS.parseInt (JS.or_string (Req.limit req) "10") in
  let details := negb (bool_decide (Req.details req = Some "false")) in
  try_catch
    (geoData ← googleGet (Geocode location) (geocode_reply w location);
     match head (default [] (Geo.results geoData)) with
     | None => mret {| status := 404; payload := Error "Location not found" |}
     | Some loc =>
         placesData ← googleGet (TextSearch type (Geo.lat loc) (Geo.lng loc))
                        (textsearch_reply w type (Geo.lat loc) (Geo.lng loc));
         let places := JS.slice0 (default [] (Place.results placesData)) limit in
         detailed ← (if details then enrich_from w 0 places
                     else mret (summary <$> places));
         mret {| status := 200; payload := Results detailed |}
     end)
    (fun err => mret {| status := 500; payload := Error (message err) |}).

End Legacy.

(** *** Predicates of the statements *)

(** No character of the string is white space. *)
Fixpoint no_space (s : string) : bool :=
  match s with
  | String c r => negb (JS.is_space c) && no_space r
  | EmptyString => true
  end.

(** The text is ASCII: no byte of it is 128 or more. On such a text the
    white space of [JS.is_space] and [Text.plain] and the letter case of
    [JS.toLowerCase] are all of JavaScript's, so [trim], [toLowerCase],
    [parseInt] and the email pattern are exact. The statements below that
    speak of what these make of a text a client sends are made for ASCII
    texts. *)
Fixpoint ascii_text (s : string) : bool :=
  match s with
  | String c r => bool_decide (nat_of_ascii c < 128)%nat && ascii_text r
  | EmptyString => true
  end.

(** A parameter that is missing, or an ASCII text. *)
Definition ascii_only (o : option string) : bool :=
  match o with
  | Some s => ascii_text s
  | None => true
  end.

(** No two rows carry the same email ([email TEXT UNIQUE]). *)
Definition emails_unique (t : gmap Z row) : Prop :=
  forall (i j : Z) (ri rj : row),
    t !! i = Some ri -> t !! j = Some rj -> r_email ri = r_email rj -> i = j.

(** The pattern of [/auth/register] in words: a local part, ["@"], a
    domain part, ["."], a last part, each non-empty and free of white
    space and of ["@"]. *)
Definition email_shaped (s : string) : Prop :=
  exists a b c : string,
    s = a +:+ "@" +:+ b +:+ "." +:+ c
    /\ a <> "" /\ b <> "" /\ c <> ""
    /\ Text.all_plain a = true /\ Text.all_plain b = true /\ Text.all_plain c = true.

(** The row object the query by email returns for a table. *)
Definition find_by_email (e : string) (t : gmap Z row) : option user :=
  head (omap (fun '(i, r) => if decide (r_email r = e) then Some (user_of_row i r) else None)
             (map_to_list t)).

(** The answer of the quota server and the answer of the server without
    accounts carry the same thing: the same status, and the same leads or
    the same error message. *)
Definition same_answer (old : Legacy.response) (new : response) : Prop :=
  Legacy.status old = status new
  /\ match Legacy.payload old, payload new with
     | Legacy.Results l, SearchBody l' _ _ _ => l = l'
     | Legacy.Error m, ErrorBody m' => m = m'
     | _, _ => False
     end.

(** *** More sample data *)

Module Fixture.

(** The request of [Sample.request] with [details=false]. *)
Definition bare_request (location limit : string) : Req.t :=
  {| Req.authorization := Some "Bearer tok7"; Req.type := Some "plumber";
     Req.location := Some location; Req.limit := Some limit;
     Req.details := Some "false" |}.

(** A registrar whose hash is the one [Sample.austin] compares against
    and whose sequence delivers 7. *)
Definition clerk : registrar :=
  {| bcrypt_hash := fun pw => "h:" +:+ pw; nextval := 7 |}.

End Fixture.

(** * Properties *)

(** ** Builtins on concrete inputs *)

Example parseInt_10 : JS.parseInt "10" = JS.Fin 10.
Proof. reflexivity. Qed.

Example parseInt_sign_and_suffix : JS.parseInt "  -5 leads" = JS.Fin (-5).
Proof. reflexivity. Qed.

Example parseInt_hex : JS.parseInt "0x1F" = JS.Fin 31.
Proof. reflexivity. Qed.

Example parseInt_abc : JS.parseInt "abc" = JS.NaN.
Proof. reflexivity. Qed.

Example bearer_stripped : JS.trim (JS.remove_first "Bearer " "Bearer tok7 ") = "tok7".
Proof. reflexivity. Qed.

Example slice0_negative_end : JS.slice0 [1; 2; 3; 4] (JS.Fin (-1)) = [1; 2; 3].
Proof. reflexivity. Qed.

Example slice0_NaN : JS.slice0 [1; 2; 3; 4] JS.NaN = [].
Proof. reflexivity. Qed.

Lemma slice0_length_le {A : Type} (l : list A) (e : JS.number) :
  (length (JS.slice0 l e) <= length l)%nat.
Proof. unfold JS.slice0. rewrite length_take. lia. Qed.

Lemma slice0_short {A : Type} (l : list A) (r : Z) :
  Z.of_nat (length l) <= r -> JS.slice0 l (JS.Fin r) = l.
Proof.
  intros Hr. unfold JS.slice0.
  rewrite bool_decide_eq_false_2 by lia.
  rewrite Z.min_r by lia. rewrite Nat2Z.id. apply firstn_all.
Qed.

(** ** The monad and the store *)

Lemma getUser_spec (w : world) (userId : Z) (st : state) :
  getUser w userId st
  = (Resolved (read_user w userId (users st)), set_users (lazy_reset w userId) st).
Proof.
  unfold getUser, read_user, lazy_reset, mbind, async_bind, select_by_id, set_users.
  destruct st as [t cs es]; simpl.
  destruct (t !! userId) as [r|] eqn:Hr; simpl; [|done].
  destruct (reset_due (now w) (r_searches_reset_date r)); simpl; [|done].
  done.
Qed.

Lemma log_calls_nil (st : state) : log_calls [] st = st.
Proof. destruct st; unfold log_calls; simpl. by rewrite app_nil_r. Qed.

Lemma log_calls_app (cs ds : list call) (st : state) :
  log_calls ds (log_calls cs st) = log_calls (cs ++ ds) st.
Proof. unfold log_calls; simpl. by rewrite app_assoc. Qed.

Lemma enrich_one_spec (w : world) (i : nat) (p : Place.t) (st : state) :
  enrich_one w i p st
  = (Resolved (lead_at w i p), log_calls [PlaceDetails (Place.place_id p)] st).
Proof.
  unfold enrich_one, try_catch, lead_at, mbind, async_bind, googleGet.
  by destruct (details_reply w i (Place.place_id p)).
Qed.

(** The enrichment never rejects: it returns one lead per candidate, in
    order, after one detail call per candidate. *)
Lemma enrich_from_spec (w : world) (places : list Place.t) :
  forall (i : nat) (st : state),
    enrich_from w i places st
    = (Resolved (leads_from w i places), log_calls (detail_calls places) st).
Proof.
  induction places as [|p ps IH]; intros i st; simpl.
  - by rewrite log_calls_nil.
  - unfold mbind, async_bind at 1. rewrite enrich_one_spec.
    unfold async_bind at 1. rewrite IH. by rewrite log_calls_app.
Qed.

Lemma leads_from_length (w : world) (places : list Place.t) :
  forall i : nat, length (leads_from w i places) = length places.
Proof. induction places as [|p ps IH]; intros i; simpl; [done | by rewrite IH]. Qed.


Lemma leads_of_length (w : world) (details : bool) (places : list Place.t) :
  length (leads_of w details places) = length places.
Proof.
  destruct details; simpl; [apply leads_from_length | apply length_fmap].
Qed.

(** The pipeline, stage by stage: what it returns and the state it
    leaves, by the provider's replies. *)
Lemma search_pipeline_spec (w : world) (type location : string) (limit : JS.number)
    (details : bool) (u : user) (st : state) :
  search_pipeline w type location limit details u st =
  match geocode_reply w location with
  | Rejected e => (Rejected e, log_calls [Geocode location] st)
  | Resolved geoData =>
      match head (default [] (Geo.results geoData)) with
      | None =>
          (Resolved (respond 404 (ErrorBody "Location not found")),
           log_calls [Geocode location] st)
      | Some loc =>
          let c := TextSearch type (Geo.lat loc) (Geo.lng loc) in
          match textsearch_reply w type (Geo.lat loc) (Geo.lng loc) with
          | Rejected e => (Rejected e, log_calls [Geocode location; c] st)
          | Resolved placesData =>
              let places := JS.slice0 (default [] (Place.results placesData)) limit in
              let n := Z.of_nat (length places) in
              (Resolved (success_response (PLAN_LIMITS (plan u)) (searches_used u) n
                           (leads_of w details places)),
               set_users (alter (debit_row n) (id u))
                 (log_calls ([Geocode location; c]
                             ++ (if details then detail_calls places else [])) st))
          end
      end
  end.
Proof.
  unfold search_pipeline, mbind, async_bind at 1, googleGet at 1.
  destruct (geocode_reply w location) as [geoData|e]; [|done].
  destruct (head (default [] (Geo.results geoData))) as [loc|]; [|done].
  unfold async_bind at 1, googleGet.
  destruct (textsearch_reply w type (Geo.lat loc) (Geo.lng loc)) as [placesData|e].
  - cbv zeta. unfold async_bind at 1.
    destruct details.
    + rewrite enrich_from_spec. unfold async_bind, update_usage, mret, async_ret, leads_of.
      unfold log_calls, set_users; simpl. by rewrite <- !app_assoc.
    + unfold mret, async_ret at 1, async_bind, update_usage, leads_of.
      unfold log_calls, set_users; simpl. by rewrite <- ?app_assoc, ?app_nil_r.
  - unfold log_calls; simpl. by rewrite <- !app_assoc.
Qed.

(** ** The [/search] handler, path by path *)

Lemma search_spec (w : world) (req : Req.t) (st : state) :
  search w req st =
  match verifyToken w req with
  | None => (Resolved (respond 401 (ErrorBody "Unauthorized — please log in")), st)
  | Some userId =>
      let st1 := set_users (lazy_reset w userId) st in
      match read_user w userId (users st) with
      | None => (Resolved (respond 401 (ErrorBody "User not found")), st1)
      | Some u =>
          if quota_exceeded (PLAN_LIMITS (plan u)) (searches_used u) (limit_of req)
          then (Resolved (quota_response (PLAN_LIMITS (plan u)) u), st1)
          else
            match search_pipeline w (type_of req) (location_of req) (limit_of req)
                    (details_of req) u st1 with
            | (Resolved r, st') => (Resolved r, st')
            | (Rejected e, st') =>
                (Resolved (respond 500 (ErrorBody (message e))), log_error e st')
            end
      end
  end.
Proof.
  unfold search. destruct (verifyToken w req) as [userId|]; [|done].
  unfold try_catch, mbind, async_bind at 1. rewrite getUser_spec.
  destruct (read_user w userId (users st)) as [u|]; [|done].
  unfold search_as, type_of, location_of, limit_of, details_of.
  destruct (quota_exceeded _ _ _); [done|].
  by destruct (search_pipeline _ _ _ _ _ _ _) as [[r|e] st'].
Qed.

(** Every request gets a response, and it is the one of its path. *)
Lemma search_follows_path (w : world) (req : Req.t) (st : state) :
  exists (resp : response) (st' : state),
    search w req st = (Resolved resp, st') /\ search_path w req st resp st'.
Proof.
  rewrite search_spec.
  destruct (verifyToken w req) as [userId|] eqn:Hv;
    [|eexists _, _; split; [done | by constructor]].
  cbv zeta.
  destruct (read_user w userId (users st)) as [u|] eqn:Hu;
    [|eexists _, _; split; [done | by econstructor]].
  destruct (quota_exceeded _ _ _) eqn:Hq;
    [eexists _, _; split; [done | by econstructor]|].
  assert (Ha : admitted w req st userId u) by done.
  rewrite search_pipeline_spec.
  destruct (geocode_reply w (location_of req)) as [geoData|e] eqn:Hg;
    [|eexists _, _; split; [done | by econstructor]].
  destruct (head (default [] (Geo.results geoData))) as [loc|] eqn:Hh;
    [|eexists _, _; split; [done | by econstructor]].
  destruct (textsearch_reply w (type_of req) (Geo.lat loc) (Geo.lng loc))
    as [placesData|e] eqn:Ht; eexists _, _; (split; [done | by econstructor]).
Qed.

Lemma search_path_of_run (w : world) (req : Req.t) (st st' : state) (resp : response) :
  search w req st = (Resolved resp, st') -> search_path w req st resp st'.
Proof.
  intros Hrun. destruct (search_follows_path w req st) as (r & s & Heq & Hp).
  rewrite Hrun in Heq. by injection Heq as -> ->.
Qed.

Lemma read_user_id (w : world) (userId : Z) (t : gmap Z row) (u : user) :
  read_user w userId t = Some u -> id u = userId.
Proof.
  unfold read_user. destruct (t !! userId) as [r|]; [|done]. simpl.
  intros [= <-]. by destruct (reset_due _ _).
Qed.

Lemma getUser_read (w : world) (userId : Z) (st st1 : state) (u : option user) :
  getUser w userId st = (Resolved u, st1) ->
  read_user w userId (users st) = u /\ st1 = set_users (lazy_reset w userId) st.
Proof. rewrite getUser_spec. by intros [= -> ->]. Qed.

(** After the read, the stored counter is the one the handler holds. *)
Lemma read_user_stored (w : world) (userId : Z) (st : state) (u : user) :
  read_user w userId (users st) = Some u ->
  stored_used (set_users (lazy_reset w userId) st) userId = Some (searches_used u).
Proof.
  unfold read_user, stored_used, lazy_reset, set_users; simpl.
  destruct (users st !! userId) as [r|] eqn:Hr; [|done]. simpl.
  intros [= <-].
  destruct (reset_due _ _); simpl.
  - rewrite lookup_alter_eq, Hr. done.
  - by rewrite Hr.
Qed.

(** ** Quota policy *)

Lemma PLAN_LIMITS_bounded (p : string) (L : Z) :
  bounded_limit p L -> PLAN_LIMITS p = JS.Num (JS.Fin L).
Proof. by intros [[-> ->]|[-> ->]]. Qed.

Lemma PLAN_LIMITS_unbounded (p : string) :
  unbounded p -> PLAN_LIMITS p = JS.Num JS.PosInf.
Proof. by intros [->| ->]. Qed.

Lemma quota_exceeded_bounded (p : string) (L used r : Z) :
  bounded_limit p L ->
  quota_exceeded (PLAN_LIMITS p) used (JS.Fin r) = false <-> used + r <= L.
Proof.
  intros Hp. rewrite (PLAN_LIMITS_bounded p L Hp).
  unfold quota_exceeded; simpl. rewrite bool_decide_eq_false. lia.
Qed.

Lemma quota_exceeded_unbounded (p : string) (used : Z) (limit : JS.number) :
  unbounded p -> quota_exceeded (PLAN_LIMITS p) used limit = false.
Proof. intros Hp. by rewrite (PLAN_LIMITS_unbounded p Hp). Qed.


(** Only the quota check answers 403. *)
Lemma search_path_403 (w : world) (req : Req.t) (st st' : state) (resp : response)
    (userId : Z) (u : user) :
  search_path w req st resp st' ->
  verifyToken w req = Some userId ->
  read_user w userId (users st) = Some u ->
  status resp = 403
  <-> quota_exceeded (PLAN_LIMITS (plan u)) (searches_used u) (limit_of req) = true.
Proof.
  intros Hp Hv Hu.
  destruct Hp; unfold admitted in *; destruct_and?; simplify_eq; simpl;
    split; first [done | congruence].
Qed.

(** C1. For an account on a bounded plan (pro, agency), a [/search]
    request whose clamped requested count is [r] is admitted (not answered
    403) if and only if [searches_used + r <= limit]; at the boundary
    [searches_used + r = limit] it is admitted; an account on an unbounded
    plan (unlimited, admin) is always admitted. *)
Theorem quota_admission_rule (w : world) (req : Req.t) (st st1 : state)
    (userId : Z) (u : user) :
  verifyToken w req = Some userId ->
  getUser w userId st = (Resolved (Some u), st1) ->
  exists (resp : response) (st' : state),
    search w req st = (Resolved resp, st')
    /\ (forall L r : Z,
          bounded_limit (plan u) L -> limit_of req = JS.Fin r ->
          (status resp <> 403 <-> searches_used u + r <= L)
          /\ (searches_used u + r = L -> status resp <> 403))
    /\ (unbounded (plan u) -> status resp <> 403).
Proof.
  intros Hv Hload. apply getUser_read in Hload as [Hu _].
  destruct (search_follows_path w req st) as (resp & st' & Hrun & Hp).
  exists resp, st'. split; [done|].
  pose proof (search_path_403 w req st st' resp userId u Hp Hv Hu) as H403.
  split.
  - intros L r HL Hr. rewrite Hr in H403.
    pose proof (quota_exceeded_bounded (plan u) L (searches_used u) r HL) as Hq.
    assert (Hiff : status resp <> 403 <-> searches_used u + r <= L).
    { rewrite H403, <- Hq. by destruct (quota_exceeded _ _ _). }
    split; [done|]. intros HeqL. apply Hiff. lia.
  - intros Hunb. rewrite H403.
    by rewrite (quota_exceeded_unbounded (plan u) (searches_used u) (limit_of req) Hunb).
Qed.

(** A pro account at 990 of 1000 asking for 10 leads: the boundary. *)
Lemma quota_admission_rule_witness :
  exists (resp : response) (st' : state),
    search Sample.austin (Sample.request "Austin" "10")
      (Sample.table (Sample.account "pro" 990 Sample.feb3)) = (Resolved resp, st')
    /\ (forall L r : Z,
          bounded_limit "pro" L -> limit_of (Sample.request "Austin" "10") = JS.Fin r ->
          (status resp <> 403 <-> 990 + r <= L)
          /\ (990 + r = L -> status resp <> 403))
    /\ (unbounded "pro" -> status resp <> 403).
Proof.
  exact (quota_admission_rule Sample.austin (Sample.request "Austin" "10")
           (Sample.table (Sample.account "pro" 990 Sample.feb3))
           (Sample.table (Sample.account "pro" 990 Sample.feb3))
           7 (user_of_row 7 (Sample.account "pro" 990 Sample.feb3))
           eq_refl eq_refl).
Defined.

(** ** Debit *)

Lemma stored_used_debit (t : gmap Z row) (userId used n : Z) :
  r_searches_used <$> t !! userId = Some used ->
  r_searches_used <$> alter (debit_row n) userId t !! userId = Some (used + n).
Proof.
  rewrite lookup_alter_eq. destruct (t !! userId) as [r|]; [|done].
  simpl. by intros [= ->].
Qed.

(** C2. After a successful [/search] request the stored [searches_used]
    has grown by the number of leads in the response, which is the length
    of the provider's list truncated to the clamped requested count; when
    the provider has fewer candidates than requested, that is the number
    of candidates, not the requested count. *)
Theorem debit_equals_returned (w : world) (req : Req.t) (st st' : state) (resp : response) :
  search w req st = (Resolved resp, st') ->
  status resp = 200 ->
  exists (userId : Z) (u : user) (st1 : state) (loc : Geo.location)
         (placesData : Place.payload) (results : list Lead.t)
         (remaining limit : JS.value),
    let candidates := default [] (Place.results placesData) in
    let returned := Z.of_nat (length results) in
    verifyToken w req = Some userId
    /\ getUser w userId st = (Resolved (Some u), st1)
    /\ textsearch_reply w (type_of req) (Geo.lat loc) (Geo.lng loc) = Resolved placesData
    /\ payload resp
       = SearchBody results (JS.Num (JS.Fin (searches_used u + returned))) remaining limit
    /\ length results = length (JS.slice0 candidates (limit_of req))
    /\ stored_used st1 userId = Some (searches_used u)
    /\ stored_used st' userId = Some (searches_used u + returned)
    /\ (forall r : Z,
          limit_of req = JS.Fin r -> Z.of_nat (length candidates) < r ->
          length results = length candidates).
Proof.
  intros Hrun H200. apply search_path_of_run in Hrun.
  destruct Hrun as [| | | | | |userId u geoData loc placesData (Hv & Hu & Hq) Hg Hh Ht places n];
    try discriminate H200.
  exists userId, u, (set_users (lazy_reset w userId) st), loc, placesData.
  eexists (leads_of w (details_of req) places), _, _. cbv zeta.
  assert (Hlen : length (leads_of w (details_of req) places) = length places)
    by apply leads_of_length.
  pose proof (read_user_stored w userId st u Hu) as Hstored.
  repeat split.
  - done.
  - by rewrite getUser_spec, Hu.
  - done.
  - unfold success_response; simpl. by rewrite Hlen.
  - done.
  - done.
  - rewrite Hlen. rewrite (read_user_id _ _ _ _ Hu).
    unfold stored_used in *; simpl in *. by apply stored_used_debit.
  - intros r Hr Hshort. rewrite Hlen. unfold places. rewrite Hr.
    rewrite slice0_short; [done | lia].
Qed.

(** Ten leads requested in Austin, three found: three are debited. *)
Lemma debit_equals_returned_witness :
  exists (resp : response) (st' : state),
    search Sample.austin (Sample.request "Austin" "10")
      (Sample.table (Sample.account "pro" 5 Sample.feb3)) = (Resolved resp, st')
    /\ status resp = 200
    /\ stored_used st' 7 = Some 8.
Proof.
  eexists _, _. split; [vm_compute; reflexivity|]. split; [reflexivity|].
  destruct (debit_equals_returned Sample.austin (Sample.request "Austin" "10")
              (Sample.table (Sample.account "pro" 5 Sample.feb3)) _ _ eq_refl eq_refl)
    as (userId & u & st1 & loc & pd & results & rm & lm & Hv & Hload & _ & Hbody & _ & _ & Hst & _).
  injection Hv as <-. injection Hload as <- _. injection Hbody as <- _ _.
  exact Hst.
Defined.

(** ** Failure paths *)

(** Re-applying the lazy reset of a read changes nothing more. *)
Lemma lazy_reset_idemp (w : world) (userId : Z) (t : gmap Z row) :
  lazy_reset w userId (lazy_reset w userId t) = lazy_reset w userId t.
Proof.
  unfold lazy_reset at 2.
  destruct (t !! userId) as [r|] eqn:Hr; [|unfold lazy_reset; by rewrite Hr].
  destruct (reset_due (now w) (r_searches_reset_date r)) eqn:Hdue;
    [|unfold lazy_reset; by rewrite Hr, Hdue].
  unfold lazy_reset. rewrite lookup_alter_eq, Hr. simpl. rewrite Hdue.
  destruct (reset_due (now w) (CURRENT_DATE w)); [|done].
  rewrite alter_alter_eq. by apply alter_ext.
Qed.

Lemma read_user_after_reset (w : world) (userId : Z) (t : gmap Z row) :
  same_account (read_user w userId t) (read_user w userId (lazy_reset w userId t)).
Proof.
  unfold read_user, lazy_reset.
  destruct (t !! userId) as [r|] eqn:Hr; [|by rewrite Hr].
  destruct (reset_due (now w) (r_searches_reset_date r)) eqn:Hdue.
  - rewrite lookup_alter_eq, Hr. simpl. rewrite Hdue.
    by destruct (reset_due (now w) (CURRENT_DATE w)).
  - rewrite Hr. simpl. by rewrite Hdue.
Qed.

(** The response and the table a request leaves depend on the state only
    through what the read sees and leaves. *)
Lemma search_ext (w : world) (req : Req.t) (st sa : state) :
  (forall userId : Z,
      verifyToken w req = Some userId ->
      lazy_reset w userId (users st) = lazy_reset w userId (users sa)
      /\ same_account (read_user w userId (users st)) (read_user w userId (users sa))) ->
  (search w req st).1 = (search w req sa).1
  /\ (verifyToken w req = None \/ users (search w req st).2 = users (search w req sa).2).
Proof.
  intros Hsame. rewrite !search_spec.
  destruct (verifyToken w req) as [userId|]; [|by split; [|left]].
  destruct (Hsame userId eq_refl) as [Ht Hu]. cbv zeta.
  destruct (read_user w userId (users st)) as [u|],
           (read_user w userId (users sa)) as [u'|]; simpl in Hu; try done;
    [|by split; [|right]].
  destruct Hu as (Hid & Hplan & Hused). rewrite <- Hplan, <- Hused.
  destruct (quota_exceeded _ _ _).
  { unfold quota_response. rewrite <- Hplan, <- Hused. by split; [|right]. }
  rewrite !search_pipeline_spec. rewrite <- Hplan, <- Hused, <- Hid.
  destruct (geocode_reply w (location_of req)) as [geoData|e]; [|by split; [|right]].
  destruct (head (default [] (Geo.results geoData))) as [loc|]; [|by split; [|right]].
  destruct (textsearch_reply w (type_of req) (Geo.lat loc) (Geo.lng loc)) as [pd|e];
    [|by split; [|right]].
  simpl. split; [done|right]. by rewrite Ht.
Qed.

(** A read leaves every row as it was, except the row of the account
    read when its reset is due. *)
Lemma lazy_reset_lookup (w : world) (userId k : Z) (t : gmap Z row) (r : row) :
  t !! k = Some r ->
  lazy_reset w userId t !! k = Some r
  \/ (k = userId /\ reset_due (now w) (r_searches_reset_date r) = true
      /\ lazy_reset w userId t !! k = Some (reset_row (CURRENT_DATE w) r)).
Proof.
  intros Hk. unfold lazy_reset.
  destruct (t !! userId) as [r'|] eqn:Hr; [|by left].
  destruct (reset_due (now w) (r_searches_reset_date r')) eqn:Hdue; [|by left].
  destruct (decide (k = userId)) as [->|Hne].
  - right. rewrite lookup_alter_eq, Hr. rewrite Hr in Hk. by injection Hk as ->.
  - left. by rewrite lookup_alter_ne.
Qed.

(** On a failure path the table is the one the read left. *)
Lemma search_path_failure_table (w : world) (req : Req.t) (st st' : state) (resp : response) :
  search_path w req st resp st' ->
  status resp <> 200 ->
  users st' = table_after_read w req (users st).
Proof.
  intros Hp Hfail. unfold table_after_read.
  destruct Hp as [Hv|? Hv ?|? ? Hv ? ?|? ? ? (Hv & ?) ?|? ? ? (Hv & ?) ? ?
                  |? ? ? ? ? (Hv & ?) ? ? ?|? ? ? ? ? (Hv & ?) ? ? ? ? ?];
    rewrite Hv; done.
Qed.

(** C3 (amended). On every failure outcome of [/search] (401, 403, 404,
    500) nothing is debited: the table is left as the read of the request
    left it, so every row is unchanged except that the row of the
    authenticated account is reset when its monthly reset was due; and
    repeating the request gets the same response and leaves the same
    table. *)
Theorem search_failure_no_debit (w : world) (req : Req.t) (st st' : state) (resp : response) :
  search w req st = (Resolved resp, st') ->
  status resp <> 200 ->
  users st' = table_after_read w req (users st)
  /\ (forall (k : Z) (r : row),
        users st !! k = Some r ->
        users st' !! k = Some r
        \/ (verifyToken w req = Some k
            /\ reset_due (now w) (r_searches_reset_date r) = true
            /\ users st' !! k = Some (reset_row (CURRENT_DATE w) r)))
  /\ exists st'' : state,
       search w req st' = (Resolved resp, st'') /\ users st'' = users st'.
Proof.
  intros Hrun Hfail.
  pose proof (search_path_failure_table w req st st' resp
                (search_path_of_run _ _ _ _ _ Hrun) Hfail) as Htable.
  split; [done|]. split.
  - intros k r Hk. rewrite Htable. unfold table_after_read.
    destruct (verifyToken w req) as [userId|]; [|by left].
    destruct (lazy_reset_lookup w userId k (users st) r Hk) as [?|(-> & ? & ?)];
      [by left | by right].
  - destruct (search_follows_path w req st') as (resp2 & st'' & Hrun2 & _).
    destruct (search_ext w req st st') as [Hresp Husers].
    { intros userId Hv. rewrite Htable. unfold table_after_read. rewrite Hv.
      split; [by rewrite lazy_reset_idemp | apply read_user_after_reset]. }
    rewrite Hrun, Hrun2 in Hresp, Husers. simpl in Hresp, Husers.
    injection Hresp as <-. exists st''. split; [done|].
    destruct Husers as [Hnone|Heq]; [|done].
    rewrite search_spec, Hnone in Hrun2. by injection Hrun2 as _ <-.
Qed.

(** An unknown location, asked by an account whose counter is due for
    its monthly reset. *)
Lemma search_failure_no_debit_witness :
  exists (resp : response) (st' : state),
    search Sample.austin (Sample.request "Nowhere" "10")
      (Sample.table (Sample.account "pro" 5 Sample.feb3)) = (Resolved resp, st')
    /\ status resp = 404
    /\ users st' = users (Sample.table (Sample.account "pro" 5 Sample.feb3)).
Proof.
  eexists _, _. split; [vm_compute; reflexivity|]. split; [reflexivity|].
  exact (proj1 (search_failure_no_debit Sample.austin (Sample.request "Nowhere" "10")
                  (Sample.table (Sample.account "pro" 5 Sample.feb3)) _ _
                  eq_refl ltac:(discriminate))).
Defined.

(** C3 (as stated, refuted). A 404 for an unknown location, on the first
    read of February of an account last reset in January: the stored
    counter goes from 5 to 0 on a failure path. *)
Lemma failure_path_changes_counter :
  exists (resp : response) (st' : state),
    search Sample.austin (Sample.request "Nowhere" "10")
      (Sample.table (Sample.account "pro" 5 {| year := 2024; month := 1; day := 15 |}))
    = (Resolved resp, st')
    /\ status resp = 404
    /\ stored_used
         (Sample.table (Sample.account "pro" 5 {| year := 2024; month := 1; day := 15 |})) 7
       = Some 5
    /\ stored_used st' 7 = Some 0.
Proof. eexists _, _. split; [vm_compute; reflexivity|]. by vm_compute. Qed.

(** ** Enrichment *)

Lemma summary_no_contact (p : Place.t) :
  Lead.phone (summary p) = None /\ Lead.website (summary p) = None.
Proof. done. Qed.



Example austin_leads :
  leads_of Sample.austin true [Sample.ace; Sample.best; Sample.city]
  = [enriched Sample.ace Sample.detail; summary Sample.best; enriched Sample.city Sample.detail].
Proof. reflexivity. Qed.

(** ** Quota check and provider calls *)

(** C5. A [/search] request rejected by the quota policy (answered 403)
    issues no provider call; and whenever a request issues a provider
    call, its quota check was evaluated before and admitted it. *)
Theorem quota_rejection_before_provider (w : world) (req : Req.t) (st st' : state)
    (resp : response) :
  search w req st = (Resolved resp, st') ->
  (status resp = 403 -> calls st' = calls st)
  /\ (calls st' <> calls st ->
      exists (userId : Z) (u : user) (st1 : state),
        verifyToken w req = Some userId
        /\ getUser w userId st = (Resolved (Some u), st1)
        /\ quota_exceeded (PLAN_LIMITS (plan u)) (searches_used u) (limit_of req) = false).
Proof.
  intros Hrun. apply search_path_of_run in Hrun.
  assert (Hadm : forall userId u,
             admitted w req st userId u ->
             exists (userId : Z) (u : user) (st1 : state),
               verifyToken w req = Some userId
               /\ getUser w userId st = (Resolved (Some u), st1)
               /\ quota_exceeded (PLAN_LIMITS (plan u)) (searches_used u) (limit_of req)
                  = false).
  { intros userId u (Hv & Hu & Hq). exists userId, u, (set_users (lazy_reset w userId) st).
    by rewrite getUser_spec, Hu. }
  destruct Hrun; split; intros Hobs; simpl in *;
    first [discriminate | congruence | by eapply Hadm].
Qed.

(** A pro account at 995 of 1000 asking for 10 leads is turned away
    before anything is sent to the provider. *)
Lemma quota_rejection_before_provider_witness :
  exists (resp : response) (st' : state),
    search Sample.austin (Sample.request "Austin" "10")
      (Sample.table (Sample.account "pro" 995 Sample.feb3)) = (Resolved resp, st')
    /\ status resp = 403
    /\ calls st' = [].
Proof.
  eexists _, _. split; [vm_compute; reflexivity|]. split; [reflexivity|].
  exact (proj1 (quota_rejection_before_provider Sample.austin (Sample.request "Austin" "10")
                  (Sample.table (Sample.account "pro" 995 Sample.feb3)) _ _ eq_refl)
           eq_refl).
Defined.

(** ** Monthly reset *)

Lemma reset_due_spec (now resetDate : date) :
  reset_due now resetDate = true
  <-> year now > year resetDate \/ month now > month resetDate.
Proof.
  unfold reset_due, getFullYear, getMonth.
  rewrite orb_true_iff, !bool_decide_eq_true. lia.
Qed.

(** When the stored year is not ahead of the clock, the test of the code
    is the lexicographic one. *)
Lemma reset_due_lexicographic (now resetDate : date) :
  year resetDate <= year now ->
  reset_due now resetDate = true <-> month_advanced now resetDate.
Proof. intros Hy. rewrite reset_due_spec. unfold month_advanced. lia. Qed.

Lemma reset_due_same_month (now resetDate : date) :
  year now = year resetDate -> month now = month resetDate ->
  reset_due now resetDate = false.
Proof.
  intros Hy Hm. apply not_true_is_false. rewrite reset_due_spec. lia.
Qed.

(** C6 (the code at the failing input). The row of account 7 carries the
    reset date 1 January 2025 and is read while the process clock reads
    31 December 2024: (2024, 12) is not greater than (2025, 1) in
    lexicographic order, yet the test of the code holds (month 11 > 0),
    and both [getUser] and the login path reset the counter from 5 to 0. *)
Theorem reset_fires_without_month_advance :
  let w := Sample.new_year in
  let stored := {| year := 2025; month := 1; day := 1 |} in
  let st := Sample.table (Sample.account "pro" 5 stored) in
  ~ month_advanced (now w) stored
  /\ reset_due (now w) stored = true
  /\ (exists (u : user) (st' : state),
        getUser w 7 st = (Resolved (Some u), st')
        /\ searches_used u = 0 /\ stored_used st' 7 = Some 0)
  /\ (exists (resp : response) (st' : state),
        login w (Some "a@b.co") (Some "secret12") st = (Resolved resp, st')
        /\ status resp = 200 /\ stored_used st' 7 = Some 0).
Proof.
  cbv zeta. split; [|split; [|split]].
  - unfold month_advanced; simpl. lia.
  - reflexivity.
  - eexists _, _. split; [vm_compute; reflexivity|]. by vm_compute.
  - eexists _, _. split; [vm_compute; reflexivity|]. by vm_compute.
Qed.

(** The failing row is one the handlers write themselves: with the store
    a day ahead of the process over the new year, the first search of an
    account last reset in November stores the reset date 1 January 2025,
    and the next search, the same evening, resets the counter again: after
    two searches of three leads the stored usage is 3. *)
Example reset_repeats_across_new_year :
  exists (r1 r2 : response) (st1 st2 : state),
    search Sample.new_year (Sample.request "Austin" "10")
      (Sample.table (Sample.account "pro" 5 {| year := 2024; month := 11; day := 15 |}))
    = (Resolved r1, st1)
    /\ status r1 = 200
    /\ users st1 !! 7
       = Some (Sample.account "pro" 3 {| year := 2025; month := 1; day := 1 |})
    /\ search Sample.new_year (Sample.request "Austin" "10") st1 = (Resolved r2, st2)
    /\ status r2 = 200
    /\ stored_used st2 7 = Some 3.
Proof.
  eexists _, _, _, _. split; [vm_compute; reflexivity|].
  split; [reflexivity|]. split; [by vm_compute|].
  split; [vm_compute; reflexivity|]. by vm_compute.
Qed.

(** ** Status codes and bodies of the failure paths *)

Lemma quota_exceeded_true (p : string) (used : Z) (limit : JS.number) :
  quota_exceeded (PLAN_LIMITS p) used limit = true ->
  exists L : Z, bounded_limit p L.
Proof.
  unfold quota_exceeded, PLAN_LIMITS, bounded_limit.
  repeat case_decide; subst; simpl; try discriminate; eauto.
  by destruct limit.
Qed.

(** C7 (amended). A quota-rejected [/search] request on a bounded plan is
    answered 403 with [searches_remaining] equal to the plan limit minus
    the usage to date, not clamped: it is non-negative exactly when the
    usage does not exceed the limit. *)
Theorem quota_rejection_remaining (w : world) (req : Req.t) (st st' : state)
    (resp : response) :
  search w req st = (Resolved resp, st') ->
  status resp = 403 ->
  exists (userId : Z) (u : user) (st1 : state) (L : Z) (msg : string),
    verifyToken w req = Some userId
    /\ getUser w userId st = (Resolved (Some u), st1)
    /\ bounded_limit (plan u) L
    /\ payload resp
       = QuotaBody msg (JS.Num (JS.Fin (searches_used u)))
           (JS.Num (JS.Fin (L - searches_used u))) (JS.Num (JS.Fin L)) (plan u)
    /\ (0 <= L - searches_used u <-> searches_used u <= L).
Proof.
  intros Hrun H403. apply search_path_of_run in Hrun.
  destruct Hrun as [| |userId u Hv Hu Hq| | | |]; try discriminate H403.
  destruct (quota_exceeded_true _ _ _ Hq) as [L HL].
  exists userId, u, (set_users (lazy_reset w userId) st), L. eexists.
  repeat split; try done.
  - by rewrite getUser_spec, Hu.
  - unfold quota_response. rewrite (PLAN_LIMITS_bounded _ _ HL). simpl.
    by rewrite Z.add_opp_r.
  - lia.
  - lia.
Qed.

Lemma quota_rejection_remaining_witness :
  exists (resp : response) (st' : state) (msg : string),
    search Sample.austin (Sample.request "Austin" "10")
      (Sample.table (Sample.account "pro" 995 Sample.feb3)) = (Resolved resp, st')
    /\ status resp = 403
    /\ payload resp
       = QuotaBody msg (JS.Num (JS.Fin 995)) (JS.Num (JS.Fin 5)) (JS.Num (JS.Fin 1000)) "pro".
Proof.
  eexists _, _.
  destruct (quota_rejection_remaining Sample.austin (Sample.request "Austin" "10")
              (Sample.table (Sample.account "pro" 995 Sample.feb3)) _ _ eq_refl eq_refl)
    as (userId & u & st1 & L & msg & Hv & Hload & HL & Hbody & _).
  exists msg. split; [vm_compute; reflexivity|]. split; [reflexivity|].
  injection Hv as <-. injection Hload as <- _.
  destruct HL as [[_ ->]|[Hplan _]]; [exact Hbody | discriminate Hplan].
Defined.

(** C7 (as stated, refuted). A pro account whose stored usage, 1015, is
    above the limit of 1000 asks for 10 leads: the 403 carries
    [searches_remaining = -15]. *)
Lemma quota_remaining_negative :
  search Sample.austin (Sample.request "Austin" "10")
    (Sample.table (Sample.account "pro" 1015 Sample.feb3))
  = (Resolved
       (respond 403
          (QuotaBody
             "You only have -15 searches left this month. Reduce your lead count or upgrade your plan."
             (JS.Num (JS.Fin 1015)) (JS.Num (JS.Fin (-15))) (JS.Num (JS.Fin 1000)) "pro")),
     Sample.table (Sample.account "pro" 1015 Sample.feb3))
  /\ ~ (0 <= -15).
Proof. split; [by vm_compute | lia]. Qed.

(** A usage above the limit is reachable through the handler alone: a
    negative [limit] passes the quota check at 999 of 1000 and
    [slice(0, -1)] keeps two of the three candidates. *)
Example negative_limit_overdraws :
  exists (resp : response) (st' : state),
    search Sample.austin (Sample.request "Austin" "-1")
      (Sample.table (Sample.account "pro" 999 Sample.feb3)) = (Resolved resp, st')
    /\ status resp = 200 /\ stored_used st' 7 = Some 1001.
Proof. eexists _, _. split; [vm_compute; reflexivity|]. by vm_compute. Qed.

Lemma lazy_reset_absent (w : world) (userId : Z) (st : state) :
  users st !! userId = None -> set_users (lazy_reset w userId) st = st.
Proof.
  intros Hnone. destruct st as [t cs es]; unfold set_users, lazy_reset; simpl in *.
  by rewrite Hnone.
Qed.

(** A valid token whose account is gone: [/search] answers 401 where
    [/auth/me] answers 404. *)
Lemma vanished_account_statuses (w : world) (req : Req.t) (st : state) (userId : Z) :
  verifyToken w req = Some userId ->
  users st !! userId = None ->
  search w req st = (Resolved (respond 401 (ErrorBody "User not found")), st)
  /\ me w req st = (Resolved (respond 404 (ErrorBody "User not found")), st).
Proof.
  intros Hv Hnone. split.
  - rewrite search_spec, Hv. cbv zeta. unfold read_user. rewrite Hnone. simpl.
    by rewrite lazy_reset_absent.
  - unfold me. rewrite Hv. unfold try_catch, mbind, async_bind.
    rewrite getUser_spec. unfold read_user. rewrite Hnone. simpl.
    by rewrite lazy_reset_absent.
Qed.

(** C8 (the code at the failing input). Token [tok7] is valid for
    account 7 and the table is empty: [/search] answers 401 "User not
    found", not 404; [/auth/me] answers 404 to the same request. *)
Theorem vanished_account_gets_401 :
  search Sample.austin (Sample.request "Austin" "10") Sample.no_accounts
  = (Resolved (respond 401 (ErrorBody "User not found")), Sample.no_accounts)
  /\ me Sample.austin (Sample.request "Austin" "10") Sample.no_accounts
     = (Resolved (respond 404 (ErrorBody "User not found")), Sample.no_accounts).
Proof. by vm_compute. Qed.

(** What the top-level [catch] of [/search] sends for a rejected geocode
    call: the message of the error itself. *)
Lemma geocode_error_body (w : world) (req : Req.t) (st : state) (userId : Z) (u : user)
    (e : error) :
  admitted w req st userId u ->
  geocode_reply w (location_of req) = Rejected e ->
  exists st' : state,
    search w req st = (Resolved (respond 500 (ErrorBody (message e))), st')
    /\ console st' = console st ++ [e].
Proof.
  intros (Hv & Hu & Hq) Hg. rewrite search_spec, Hv. cbv zeta. rewrite Hu, Hq.
  rewrite search_pipeline_spec, Hg. by eexists.
Qed.

(** C9 (the code at the failing input). The geocode call fails with
    "getaddrinfo ENOTFOUND maps.googleapis.com": the 500 body carries
    that very message, the same error goes to the console, and nothing
    is debited. *)
Theorem upstream_error_message_returned :
  exists st' : state,
    search Sample.offline (Sample.request "Austin" "10")
      (Sample.table (Sample.account "pro" 5 Sample.feb3))
    = (Resolved (respond 500 (ErrorBody "getaddrinfo ENOTFOUND maps.googleapis.com")), st')
    /\ message Sample.enotfound = "getaddrinfo ENOTFOUND maps.googleapis.com"
    /\ console st' = [Sample.enotfound]
    /\ stored_used st' 7 = Some 5.
Proof. eexists. split; [vm_compute; reflexivity|]. by vm_compute. Qed.

(** ** A [limit] that does not parse *)



Lemma debit_nothing (t : gmap Z row) (userId : Z) :
  alter (debit_row 0) userId t = t.
Proof.
  apply alter_id. intros [? ? ? ? ?] _. unfold debit_row; simpl. by rewrite Z.add_0_r.
Qed.




(** * Further properties of the server *)

(** ** The successful path of [/search] *)

(** What a 200 tells about the run. *)
Lemma search_200_inv (w : world) (req : Req.t) (st st' : state) (resp : response) :
  search w req st = (Resolved resp, st') ->
  status resp = 200 ->
  exists (userId : Z) (u : user) (geoData : Geo.payload) (loc : Geo.location)
         (placesData : Place.payload),
    let places := JS.slice0 (default [] (Place.results placesData)) (limit_of req) in
    let n := Z.of_nat (length places) in
    admitted w req st userId u
    /\ geocode_reply w (location_of req) = Resolved geoData
    /\ head (default [] (Geo.results geoData)) = Some loc
    /\ textsearch_reply w (type_of req) (Geo.lat loc) (Geo.lng loc) = Resolved placesData
    /\ resp = success_response (PLAN_LIMITS (plan u)) (searches_used u) n
                (leads_of w (details_of req) places)
    /\ st' = set_users (alter (debit_row n) (id u))
               (log_calls ([Geocode (location_of req);
                            TextSearch (type_of req) (Geo.lat loc) (Geo.lng loc)]
                           ++ (if details_of req then detail_calls places else []))
                  (set_users (lazy_reset w userId) st)).
Proof.
  intros Hrun H200. apply search_path_of_run in Hrun.
  destruct Hrun as [| | | | | |userId u geoData loc placesData Ha Hg Hh Ht places n];
    try discriminate H200.
  by exists userId, u, geoData, loc, placesData.
Qed.

Lemma parseInt_finite (s : string) :
  JS.parseInt s = JS.NaN \/ exists z : Z, JS.parseInt s = JS.Fin z.
Proof. unfold JS.parseInt. repeat case_match; eauto. Qed.

(** The clamped count is [NaN] or an integer of at most 25. *)
Lemma clamp_limit_range (param : option string) :
  clamp_limit param = JS.NaN
  \/ exists z : Z, clamp_limit param = JS.Fin z /\ z <= 25.
Proof.
  unfold clamp_limit.
  destruct (parseInt_finite (JS.or_string param "10")) as [->|[z ->]]; [by left|].
  right. exists (Z.min z 25). split; [done | lia].
Qed.

Lemma slice0_length {A : Type} (l : list A) (r : Z) :
  0 <= r -> Z.of_nat (length (JS.slice0 l (JS.Fin r))) = Z.min r (Z.of_nat (length l)).
Proof.
  intros Hr. unfold JS.slice0. rewrite bool_decide_eq_false_2 by lia.
  rewrite length_take. lia.
Qed.

(** A 200 for a request whose clamped count is a non-negative [r]
    carries at most [r] leads, hence at most 25, and never more than the
    provider found. *)
Theorem search_returns_at_most_requested (w : world) (req : Req.t) (st st' : state)
    (resp : response) (results : list Lead.t) (used remaining limit : JS.value) (r : Z) :
  search w req st = (Resolved resp, st') ->
  payload resp = SearchBody results used remaining limit ->
  limit_of req = JS.Fin r ->
  0 <= r ->
  Z.of_nat (length results) <= r /\ (length results <= 25)%nat.
Proof.
  intros Hrun Hbody Hr Hpos.
  assert (H200 : status resp = 200).
  { apply search_path_of_run in Hrun. destruct Hrun; try discriminate Hbody. done. }
  destruct (search_200_inv w req st st' resp Hrun H200)
    as (userId & u & geoData & loc & pd & _ & _ & _ & _ & -> & _).
  unfold success_response in Hbody. simpl in Hbody. injection Hbody as <- _ _ _.
  rewrite leads_of_length, Hr.
  pose proof (slice0_length (default [] (Place.results pd)) r Hpos) as Hlen.
  destruct (clamp_limit_range (Req.limit req)) as [Hnan|(z & Hz & Hle)];
    unfold limit_of in Hr; [congruence|].
  assert (r = z) by congruence. lia.
Qed.

Lemma search_returns_at_most_requested_witness :
  exists (resp : response) (st' : state) (results : list Lead.t)
         (used remaining limit : JS.value),
    search Sample.austin (Sample.request "Austin" "2")
      (Sample.table (Sample.account "pro" 5 Sample.feb3)) = (Resolved resp, st')
    /\ payload resp = SearchBody results used remaining limit
    /\ Z.of_nat (length results) <= 2 /\ (length results <= 25)%nat.
Proof.
  eexists _, _, _, _, _, _. split; [vm_compute; reflexivity|]. split; [reflexivity|].
  exact (search_returns_at_most_requested Sample.austin (Sample.request "Austin" "2")
           (Sample.table (Sample.account "pro" 5 Sample.feb3)) _ _ _ _ _ _ 2
           eq_refl eq_refl eq_refl ltac:(lia)).
Defined.

(** ** What [/search] does to the table *)

Lemma lazy_reset_lookup_ne (w : world) (userId k : Z) (t : gmap Z row) :
  k <> userId -> lazy_reset w userId t !! k = t !! k.
Proof.
  intros Hne. unfold lazy_reset.
  destruct (t !! userId) as [r|]; [|done].
  destruct (reset_due _ _); [|done]. by rewrite lookup_alter_ne.
Qed.

Lemma lazy_reset_lookup_eq (w : world) (userId : Z) (t : gmap Z row) :
  lazy_reset w userId t !! userId
  = (fun r => if reset_due (now w) (r_searches_reset_date r)
              then reset_row (CURRENT_DATE w) r else r) <$> t !! userId.
Proof.
  unfold lazy_reset. destruct (t !! userId) as [r|] eqn:Hr; [|by rewrite Hr].
  simpl. destruct (reset_due _ _); [|by rewrite Hr].
  by rewrite lookup_alter_eq, Hr.
Qed.

(** The table after a request: the read of the authenticated account,
    then the debit of [n] on its row, [n] being 0 unless the answer is
    200. *)
Lemma search_table (w : world) (req : Req.t) (st st' : state) (resp : response) :
  search w req st = (Resolved resp, st') ->
  (verifyToken w req = None /\ users st' = users st)
  \/ exists (userId n : Z),
       verifyToken w req = Some userId
       /\ 0 <= n
       /\ (status resp <> 200 -> n = 0)
       /\ users st' = alter (debit_row n) userId (lazy_reset w userId (users st)).
Proof.
  intros Hrun. destruct (decide (status resp = 200)) as [H200|Hfail].
  - destruct (search_200_inv w req st st' resp Hrun H200)
      as (userId & u & geoData & loc & pd & (Hv & Hu & _) & _ & _ & _ & _ & ->).
    right. eexists userId, _. split; [done|]. split; [apply Nat2Z.is_nonneg|].
    split; [done|]. simpl. by rewrite (read_user_id _ _ _ _ Hu).
  - pose proof (search_path_failure_table w req st st' resp
                  (search_path_of_run _ _ _ _ _ Hrun) Hfail) as Htable.
    unfold table_after_read in Htable.
    destruct (verifyToken w req) as [userId|]; [|by left].
    right. exists userId, 0. repeat split; try done.
    by rewrite debit_nothing.
Qed.

(** A request never touches the row of another account, and it neither
    adds nor removes a row. *)
Theorem search_touches_one_account (w : world) (req : Req.t) (st st' : state)
    (resp : response) :
  search w req st = (Resolved resp, st') ->
  (forall k : Z, verifyToken w req <> Some k -> users st' !! k = users st !! k)
  /\ dom (users st') = dom (users st).
Proof.
  intros Hrun.
  destruct (search_table w req st st' resp Hrun)
    as [[Hv ->]|(userId & n & Hv & _ & _ & ->)]; [done|].
  split.
  - intros k Hk. assert (k <> userId) by congruence.
    by rewrite lookup_alter_ne, lazy_reset_lookup_ne.
  - apply set_eq. intros k. rewrite !elem_of_dom.
    destruct (decide (k = userId)) as [->|Hne].
    + rewrite lookup_alter_eq, lazy_reset_lookup_eq.
      rewrite !fmap_is_Some. done.
    + by rewrite lookup_alter_ne, lazy_reset_lookup_ne.
Qed.

Lemma search_touches_one_account_witness :
  exists (resp : response) (st' : state),
    search Sample.austin (Sample.request "Austin" "10")
      (Sample.table (Sample.account "pro" 5 Sample.feb3)) = (Resolved resp, st')
    /\ dom (users st') = dom (users (Sample.table (Sample.account "pro" 5 Sample.feb3))).
Proof.
  eexists _, _. split; [vm_compute; reflexivity|].
  exact (proj2 (search_touches_one_account Sample.austin (Sample.request "Austin" "10")
                  (Sample.table (Sample.account "pro" 5 Sample.feb3)) _ _ eq_refl)).
Defined.

(** On the row of the account that asks, a request changes nothing but
    the counter and the reset date: email, password hash and plan stay;
    and when no monthly reset is due the reset date stays and the counter
    does not decrease. *)
Theorem search_keeps_account (w : world) (req : Req.t) (st st' : state)
    (resp : response) (k : Z) (r : row) :
  search w req st = (Resolved resp, st') ->
  users st !! k = Some r ->
  exists r' : row,
    users st' !! k = Some r'
    /\ r_email r' = r_email r
    /\ r_password_hash r' = r_password_hash r
    /\ r_plan r' = r_plan r
    /\ (reset_due (now w) (r_searches_reset_date r) = false ->
        r_searches_reset_date r' = r_searches_reset_date r
        /\ r_searches_used r <= r_searches_used r').
Proof.
  intros Hrun Hk.
  destruct (search_table w req st st' resp Hrun)
    as [[Hv ->]|(userId & n & Hv & Hn & _ & ->)].
  { exists r. repeat split; try done; lia. }
  destruct (decide (k = userId)) as [->|Hne].
  - rewrite lookup_alter_eq, lazy_reset_lookup_eq, Hk. simpl.
    eexists. split; [done|].
    destruct (reset_due (now w) (r_searches_reset_date r)); simpl;
      repeat split; try done; simpl; lia.
  - rewrite lookup_alter_ne, lazy_reset_lookup_ne by done.
    exists r. repeat split; try done; lia.
Qed.

Lemma search_keeps_account_witness :
  exists (resp : response) (st' : state) (r' : row),
    search Sample.austin (Sample.request "Austin" "10")
      (Sample.table (Sample.account "pro" 5 Sample.feb3)) = (Resolved resp, st')
    /\ users st' !! 7 = Some r'
    /\ r_plan r' = "pro"
    /\ 5 <= r_searches_used r'.
Proof.
  eexists _, _.
  destruct (search_keeps_account Sample.austin (Sample.request "Austin" "10")
              (Sample.table (Sample.account "pro" 5 Sample.feb3)) _ _ 7
              (Sample.account "pro" 5 Sample.feb3) eq_refl eq_refl)
    as (r' & Hr' & _ & _ & Hplan & Hmono).
  exists r'. split; [vm_compute; reflexivity|]. split; [exact Hr'|].
  split; [exact Hplan|]. exact (proj2 (Hmono eq_refl)).
Defined.


(** ** The quota as an invariant *)



(** ** Provider calls *)



(** With [details=false] every lead of a 200 is the bare summary of its
    candidate, with no phone and no website, and the provider gets the
    geocode call and the text search only. *)
Theorem details_off_bare_leads (w : world) (req : Req.t) (st st' : state)
    (resp : response) (results : list Lead.t) (used remaining limit : JS.value) :
  search w req st = (Resolved resp, st') ->
  Req.details req = Some "false" ->
  payload resp = SearchBody results used remaining limit ->
  (forall l : Lead.t, l ∈ results -> Lead.phone l = None /\ Lead.website l = None)
  /\ exists loc : Geo.location,
       calls st'
       = calls st ++ [Geocode (location_of req);
                      TextSearch (type_of req) (Geo.lat loc) (Geo.lng loc)].
Proof.
  intros Hrun Hoff Hbody.
  assert (H200 : status resp = 200).
  { apply search_path_of_run in Hrun. destruct Hrun; try discriminate Hbody. done. }
  destruct (search_200_inv w req st st' resp Hrun H200)
    as (userId & u & geoData & loc & pd & _ & _ & _ & _ & -> & ->).
  assert (Hdet : details_of req = false).
  { unfold details_of. by rewrite Hoff. }
  rewrite Hdet in *. simpl in Hbody. injection Hbody as <- _ _ _.
  split.
  - intros l Hl. apply list_elem_of_fmap in Hl as (p & -> & _). done.
  - exists loc. done.
Qed.

Lemma details_off_bare_leads_witness :
  exists (resp : response) (st' : state) (results : list Lead.t)
         (used remaining limit : JS.value),
    search Sample.austin (Fixture.bare_request "Austin" "10")
      (Sample.table (Sample.account "pro" 5 Sample.feb3)) = (Resolved resp, st')
    /\ payload resp = SearchBody results used remaining limit
    /\ length results = 3%nat
    /\ forall l : Lead.t, l ∈ results -> Lead.phone l = None /\ Lead.website l = None.
Proof.
  eexists _, _, _, _, _, _. split; [vm_compute; reflexivity|].
  split; [reflexivity|]. split; [reflexivity|].
  exact (proj1 (details_off_bare_leads Sample.austin (Fixture.bare_request "Austin" "10")
                  (Sample.table (Sample.account "pro" 5 Sample.feb3))
                  _ _ _ _ _ _ eq_refl eq_refl eq_refl)).
Defined.

(** ** What the 200 reports *)



(** ** A plan that is not in the table *)



(** ** Bearer tokens *)

Lemma trim_start_no_space (s : string) : no_space s = true -> JS.trim_start s = s.
Proof.
  destruct s as [|c r]; [done|]. simpl. intros [Hc _]%andb_true_iff.
  by destruct (JS.is_space c).
Qed.

Lemma rev_app_no_space (s acc : string) :
  no_space (String.rev_app s acc) = no_space s && no_space acc.
Proof.
  revert acc. induction s as [|c r IH]; intros acc; simpl; [done|].
  rewrite IH. simpl. by destruct (JS.is_space c), (no_space r), (no_space acc).
Qed.

Lemma string_app_cons (c : ascii) (r s : string) :
  String c r +:+ s = String c (r +:+ s).
Proof. reflexivity. Qed.

Lemma string_app_empty_l (s : string) : "" +:+ s = s.
Proof. reflexivity. Qed.

Lemma string_app_empty_r (s : string) : s +:+ "" = s.
Proof. induction s as [|c r IH]; [done|]. by rewrite string_app_cons, IH. Qed.

Lemma rev_app_rev_app (s a b : string) :
  String.rev_app (String.rev_app s a) b = String.rev_app a (s +:+ b).
Proof.
  revert a b. induction s as [|c r IH]; intros a b; simpl; [done|].
  by rewrite IH, string_app_cons.
Qed.

Lemma trim_no_space (s : string) : no_space s = true -> JS.trim s = s.
Proof.
  intros Hs. unfold JS.trim, JS.trim_end. rewrite (trim_start_no_space s Hs).
  rewrite trim_start_no_space.
  - unfold String.rev. rewrite rev_app_rev_app. simpl. apply string_app_empty_r.
  - unfold String.rev. rewrite rev_app_no_space, Hs. done.
Qed.

Lemma substring_all (s : string) : String.substring 0 (String.length s) s = s.
Proof. induction s as [|c r IH]; simpl; [done | by rewrite IH]. Qed.

Lemma remove_first_bearer_prefix (t : string) :
  JS.remove_first "Bearer " ("Bearer " +:+ t) = t.
Proof.
  rewrite !string_app_cons, string_app_empty_l.
  destruct t as [|c r]; [done|].
  unfold JS.remove_first. simpl. by rewrite substring_all.
Qed.

Lemma prefix_bearer_has_space (s : string) :
  String.prefix "Bearer " s = true -> no_space s = false.
Proof.
  destruct s as [|c1 [|c2 [|c3 [|c4 [|c5 [|c6 [|c7 r]]]]]]]; simpl; try done;
    repeat (case_match; try done).
Qed.

Lemma remove_first_no_space (s : string) :
  no_space s = true -> JS.remove_first "Bearer " s = s.
Proof.
  induction s as [|c r IH]; intros Hs; [done|].
  assert (Hp : String.prefix "Bearer " (String c r) = false).
  { destruct (String.prefix "Bearer " (String c r)) eqn:Hp; [|done].
    apply prefix_bearer_has_space in Hp. congruence. }
  change (JS.remove_first "Bearer " (String c r))
    with (if String.prefix "Bearer " (String c r)
          then String.substring (String.length "Bearer ")
                 (String.length (String c r) - String.length "Bearer ") (String c r)
          else String c (JS.remove_first "Bearer " r)).
  rewrite Hp. f_equal. apply IH.
  simpl in Hs. by apply andb_true_iff in Hs as [_ ?].
Qed.

(** The [Bearer] scheme is optional: for an ASCII token without white
    space, the header ["Bearer <token>"] and the header ["<token>"] alone
    both give the token to [jwt.verify]. *)
Theorem bearer_scheme_optional (w : world) (req : Req.t) (t : string) :
  t <> "" ->
  ascii_text t = true ->
  no_space t = true ->
  Req.authorization req = Some ("Bearer " +:+ t) \/ Req.authorization req = Some t ->
  verifyToken w req = jwt_verify w t.
Proof.
  intros Hne _ Hs Hreq. unfold verifyToken.
  assert (Htoken : JS.trim (JS.remove_first "Bearer "
                              (JS.or_string (Req.authorization req) "")) = t).
  { assert (Hor : forall s : string, JS.or_string (Some s) "" = s) by (by intros []).
    destruct Hreq as [-> | ->]; rewrite Hor.
    - rewrite remove_first_bearer_prefix. by apply trim_no_space.
    - rewrite remove_first_no_space by done. by apply trim_no_space. }
  rewrite Htoken. by destruct (decide (t = "")).
Qed.

Lemma bearer_scheme_optional_witness :
  verifyToken Sample.austin
    {| Req.authorization := Some "tok7"; Req.type := None; Req.location := None;
       Req.limit := None; Req.details := None |}
  = jwt_verify Sample.austin "tok7".
Proof.
  exact (bearer_scheme_optional Sample.austin
           {| Req.authorization := Some "tok7"; Req.type := None; Req.location := None;
              Req.limit := None; Req.details := None |}
           "tok7" ltac:(discriminate) eq_refl eq_refl (or_intror eq_refl)).
Defined.

(** ** [/auth/me] *)

Lemma me_spec (w : world) (req : Req.t) (st : state) :
  me w req st =
  match verifyToken w req with
  | None => (Resolved (respond 401 (ErrorBody "Unauthorized")), st)
  | Some userId =>
      match read_user w userId (users st) with
      | None => (Resolved (respond 404 (ErrorBody "User not found")),
                 set_users (lazy_reset w userId) st)
      | Some u => (Resolved (respond 200 (user_body None u)),
                   set_users (lazy_reset w userId) st)
      end
  end.
Proof.
  unfold me. destruct (verifyToken w req) as [userId|]; [|done].
  unfold try_catch, mbind, async_bind. rewrite getUser_spec.
  by destruct (read_user w userId (users st)).
Qed.

(** [/auth/me] calls no provider and prints nothing; it leaves the table
    as its read leaves it, and its 200 reports the stored row: id, email,
    plan, usage, and the limit minus the usage for a bounded plan, [null]
    for an unbounded one. *)
Theorem me_reports_account (w : world) (req : Req.t) (st st' : state)
    (resp : response) :
  me w req st = (Resolved resp, st') ->
  calls st' = calls st
  /\ console st' = console st
  /\ users st' = table_after_read w req (users st)
  /\ (status resp = 200 ->
      exists (userId : Z) (r' : row) (remaining limit : JS.value),
        verifyToken w req = Some userId
        /\ users st' !! userId = Some r'
        /\ payload resp
           = UserBody None userId (r_email r') (r_plan r')
               (JS.Num (JS.Fin (r_searches_used r'))) remaining limit
        /\ (forall L : Z,
              bounded_limit (r_plan r') L ->
              remaining = JS.Num (JS.Fin (L - r_searches_used r'))
              /\ limit = JS.Num (JS.Fin L))
        /\ (unbounded (r_plan r') -> remaining = JS.Null /\ limit = JS.Null)).
Proof.
  rewrite me_spec. unfold table_after_read.
  destruct (verifyToken w req) as [userId|]; [|by intros [= <- <-]].
  destruct (read_user w userId (users st)) as [u|] eqn:Hu;
    intros [= <- <-]; repeat split; try done.
  intros _.
  unfold read_user in Hu. destruct (users st !! userId) as [r|] eqn:Hr; [|done].
  simpl in Hu. injection Hu as <-.
  assert (Hrow : lazy_reset w userId (users st) !! userId
                 = Some (if reset_due (now w) (r_searches_reset_date r)
                         then reset_row (CURRENT_DATE w) r else r))
    by (by rewrite lazy_reset_lookup_eq, Hr).
  exists userId. unfold user_body.
  destruct (reset_due (now w) (r_searches_reset_date r)); simpl;
    eexists _, _, _; (split; [done|]); (split; [exact Hrow|]);
    (split; [reflexivity|]); simpl; split.
  - intros L HL. rewrite (PLAN_LIMITS_bounded _ _ HL). simpl.
    split; [do 2 f_equal; lia | done].
  - intros Hunb. by rewrite (PLAN_LIMITS_unbounded _ Hunb).
  - intros L HL. rewrite (PLAN_LIMITS_bounded _ _ HL). simpl.
    split; [do 2 f_equal; lia | done].
  - intros Hunb. by rewrite (PLAN_LIMITS_unbounded _ Hunb).
Qed.

Lemma me_reports_account_witness :
  exists (resp : response) (st' : state),
    me Sample.austin (Sample.request "Austin" "10")
      (Sample.table (Sample.account "agency" 400 Sample.feb3)) = (Resolved resp, st')
    /\ payload resp
       = UserBody None 7 "a@b.co" "agency" (JS.Num (JS.Fin 400)) (JS.Num (JS.Fin 2000))
           (JS.Num (JS.Fin 2400))
    /\ calls st' = [].
Proof.
  eexists _, _. split; [vm_compute; reflexivity|]. split; [reflexivity|].
  exact (proj1 (me_reports_account Sample.austin (Sample.request "Austin" "10")
                  (Sample.table (Sample.account "agency" 400 Sample.feb3)) _ _ eq_refl)).
Defined.

Lemma set_users_same (f : gmap Z row -> gmap Z row) (st : state) :
  f (users st) = users st -> set_users f st = st.
Proof. intros Hf. destruct st as [t cs es]; unfold set_users; simpl in *. by rewrite Hf. Qed.



(** ** [/auth/login] *)

Lemma find_by_email_row (e : string) (t : gmap Z row) (u : user) :
  find_by_email e t = Some u ->
  exists (i : Z) (r : row), t !! i = Some r /\ r_email r = e /\ u = user_of_row i r.
Proof.
  unfold find_by_email. intros Hhead.
  apply head_Some_elem_of in Hhead.
  apply list_elem_of_omap in Hhead as ([i r] & Hin & Hf).
  apply elem_of_map_to_list in Hin.
  destruct (decide (r_email r = e)) as [He|]; [|done].
  injection Hf as <-. by exists i, r.
Qed.

Lemma login_reset_table (w : world) (i : Z) (r : row) (st : state) :
  users st !! i = Some r ->
  (if reset_due (now w) (r_searches_reset_date r)
   then alter (reset_row (CURRENT_DATE w)) i (users st) else users st)
  = lazy_reset w i (users st).
Proof. intros Hr. unfold lazy_reset. by rewrite Hr. Qed.

Lemma login_spec (w : world) (req_email req_password : option string) (st : state) :
  login w req_email req_password st =
  match JS.truthy_string req_email, JS.truthy_string req_password with
  | Some addr, Some pw =>
      match find_by_email (JS.trim (JS.toLowerCase addr)) (users st) with
      | None => (Resolved (respond 401 (ErrorBody "Invalid email or password")), st)
      | Some u =>
          if bcrypt_compare w pw (password_hash u) then
            let token := jwt_sign w (id u) (email u) in
            if reset_due (now w) (searches_reset_date u)
            then (Resolved (respond 200 (user_body (Some token) (set_searches_used u 0))),
                  set_users (alter (reset_row (CURRENT_DATE w)) (id u)) st)
            else (Resolved (respond 200 (user_body (Some token) u)), st)
          else (Resolved (respond 401 (ErrorBody "Invalid email or password")), st)
      end
  | _, _ => (Resolved (respond 400 (ErrorBody "Email and password required")), st)
  end.
Proof.
  unfold login.
  destruct (JS.truthy_string req_email) as [addr|]; [|done].
  destruct (JS.truthy_string req_password) as [pw|]; [|done].
  unfold try_catch, mbind, async_bind, select_by_email. fold (find_by_email
    (JS.trim (JS.toLowerCase addr)) (users st)).
  destruct (find_by_email _ _) as [u|]; [|done].
  destruct (bcrypt_compare w pw (password_hash u)); [|done]. simpl.
  by destruct (reset_due (now w) (searches_reset_date u)).
Qed.



(** A login with an ASCII email is answered 200 only for a stored account
    whose email is the normalised email of the request and whose hash the
    password matches; the table is then left as a read of that account
    leaves it, and the body carries the id, email and plan of the row
    with the token signed for them. *)
Theorem login_sound (w : world) (req_email req_password : option string)
    (st st' : state) (resp : response) :
  ascii_only req_email = true ->
  login w req_email req_password st = (Resolved resp, st') ->
  status resp = 200 ->
  exists (addr pw : string) (i : Z) (r : row) (used remaining limit : JS.value),
    req_email = Some addr /\ req_password = Some pw
    /\ users st !! i = Some r
    /\ r_email r = JS.trim (JS.toLowerCase addr)
    /\ bcrypt_compare w pw (r_password_hash r) = true
    /\ users st' = lazy_reset w i (users st)
    /\ calls st' = calls st /\ console st' = console st
    /\ payload resp
       = UserBody (Some (jwt_sign w i (r_email r))) i (r_email r) (r_plan r)
           used remaining limit.
Proof.
  intros _. rewrite login_spec.
  destruct req_email as [[|a addr']|]; try by intros [= <- <-].
  destruct req_password as [[|p pw']|]; try by intros [= <- <-].
  simpl JS.truthy_string. cbv iota.
  set (addr := String a addr'). set (pw := String p pw').
  destruct (find_by_email _ _) as [u|] eqn:Hfind; [|by intros [= <- <-]].
  destruct (find_by_email_row _ _ u Hfind) as (i & r & Hr & He & ->).
  destruct (bcrypt_compare w pw (password_hash (user_of_row i r))) eqn:Hpw;
    [|by intros [= <- <-]].
  cbv zeta. intros Hrun _. exists addr, pw, i, r.
  pose proof (login_reset_table w i r st Hr) as Htable.
  destruct (reset_due (now w) (searches_reset_date (user_of_row i r))) eqn:Hdue;
    simpl in Hdue; rewrite Hdue in Htable;
    injection Hrun as <- <-; eexists _, _, _; repeat split; try done.
Qed.

Lemma login_sound_witness :
  exists (resp : response) (st' : state),
    login Sample.austin (Some " A@B.co ") (Some "secret12")
      (Sample.table (Sample.account "pro" 5 Sample.feb3)) = (Resolved resp, st')
    /\ status resp = 200
    /\ exists (addr pw : string) (i : Z) (r : row) (used remaining limit : JS.value),
         Some " A@B.co " = Some addr /\ Some "secret12" = Some pw
         /\ users (Sample.table (Sample.account "pro" 5 Sample.feb3)) !! i = Some r
         /\ r_email r = JS.trim (JS.toLowerCase addr)
         /\ bcrypt_compare Sample.austin pw (r_password_hash r) = true
         /\ users st' = lazy_reset Sample.austin i
                          (users (Sample.table (Sample.account "pro" 5 Sample.feb3)))
         /\ calls st' = [] /\ console st' = []
         /\ payload resp
            = UserBody (Some (jwt_sign Sample.austin i (r_email r))) i (r_email r) (r_plan r)
                used remaining limit.
Proof.
  eexists _, _. split; [vm_compute; reflexivity|]. split; [reflexivity|].
  exact (login_sound Sample.austin (Some " A@B.co ") (Some "secret12")
           (Sample.table (Sample.account "pro" 5 Sample.feb3)) _ _
           eq_refl eq_refl eq_refl).
Defined.

(** ** The email pattern *)

Lemma all_plain_app (a b : string) :
  Text.all_plain (a +:+ b) = Text.all_plain a && Text.all_plain b.
Proof.
  induction a as [|c r IH]; [done|].
  rewrite string_app_cons. simpl. rewrite IH. by rewrite andb_assoc.
Qed.

Lemma split_at_sound (s a r : string) :
  Text.split_at s = Some (a, r) -> s = a +:+ "@" +:+ r.
Proof.
  revert a. induction s as [|c s IH]; intros a; simpl; [done|].
  case_bool_decide as Hc.
  - intros [= <- <-]. by rewrite Hc.
  - destruct (Text.split_at s) as [[a' r']|]; [|done].
    intros [= <- <-]. rewrite string_app_cons. f_equal. by apply IH.
Qed.

Lemma split_at_plain (a r : string) :
  Text.all_plain a = true -> Text.split_at (a +:+ "@" +:+ r) = Some (a, r).
Proof.
  induction a as [|c a IH]; intros Ha; [done|].
  rewrite string_app_cons. simpl in *.
  apply andb_true_iff in Ha as [Hc Ha]. unfold Text.plain in Hc.
  apply andb_true_iff in Hc as [_ Hat]. apply negb_true_iff in Hat.
  rewrite Hat. by rewrite IH.
Qed.

Lemma dot_before_end_spec (s : string) :
  Text.dot_before_end s = true <-> exists b c : string, s = b +:+ "." +:+ c /\ c <> "".
Proof.
  induction s as [|x s IH]; simpl.
  - split; [done|]. intros (b & c & Heq & _). by destruct b.
  - rewrite orb_true_iff, andb_true_iff, IH, bool_decide_eq_true, negb_true_iff,
      bool_decide_eq_false.
    split.
    + intros [[-> Hne]|(b & c & -> & Hc)].
      * by exists "", s.
      * exists (String x b), c. by rewrite string_app_cons.
    + intros (b & c & Heq & Hc). destruct b as [|y b].
      * left. rewrite string_app_empty_l in Heq. by injection Heq as -> ->.
      * right. rewrite string_app_cons in Heq. injection Heq as -> ->. by exists b, c.
Qed.

Lemma email_test_sound (s : string) : Text.email_test s = true -> email_shaped s.
Proof.
  unfold Text.email_test, email_shaped.
  destruct (Text.split_at s) as [[a rest]|] eqn:Hsplit; [|done].
  rewrite !andb_true_iff, negb_true_iff, bool_decide_eq_false.
  intros [[[Ha Hpa] Hprest] Hdot].
  destruct rest as [|x rest']; [done|]. simpl in Hdot.
  apply dot_before_end_spec in Hdot as (b & c & -> & Hc).
  exists a, (String x b), c.
  apply split_at_sound in Hsplit. rewrite string_app_cons.
  change (String x (b +:+ "." +:+ c)) with (String x b +:+ "." +:+ c) in Hprest.
  rewrite !all_plain_app in Hprest.
  apply andb_true_iff in Hprest as [Hb [_ Hpc]%andb_true_iff].
  repeat split; try done.
Qed.

Lemma email_test_complete (s : string) : email_shaped s -> Text.email_test s = true.
Proof.
  unfold Text.email_test, email_shaped.
  intros (a & b & c & -> & Ha & Hb & Hc & Hpa & Hpb & Hpc).
  rewrite (split_at_plain a _ Hpa).
  rewrite !andb_true_iff, negb_true_iff, bool_decide_eq_false.
  repeat split; try done.
  - rewrite !all_plain_app, Hpb, Hpc. done.
  - destruct b as [|x b]; [done|]. rewrite string_app_cons. simpl.
    apply dot_before_end_spec. by exists b, c.
Qed.

(** The test of the registration accepts exactly the ASCII texts made of
    a local part, ["@"], a domain part, ["."] and a last part, each
    non-empty and free of white space and of ["@"]. *)
Theorem email_test_shape (s : string) :
  ascii_text s = true -> (Text.email_test s = true <-> email_shaped s).
Proof.
  intros _. split.
  - apply email_test_sound.
  - apply email_test_complete.
Qed.

Lemma email_test_shape_witness : email_shaped "jo.doe@mail.example.com".
Proof.
  exact (proj1 (email_test_shape "jo.doe@mail.example.com" eq_refl) eq_refl).
Defined.

Example email_accepted : Text.email_test "jo.doe@mail.example.com" = true.
Proof. reflexivity. Qed.

Example email_without_dot_rejected : Text.email_test "jo@localhost" = false.
Proof. reflexivity. Qed.

Example email_with_space_rejected : Text.email_test " jo@mail.com" = false.
Proof. reflexivity. Qed.

Example email_two_ats_rejected : Text.email_test "jo@doe@mail.com" = false.
Proof. reflexivity. Qed.

Lemma all_plain_no_space (s : string) : Text.all_plain s = true -> no_space s = true.
Proof.
  induction s as [|c r IH]; [done|]. simpl. unfold Text.plain.
  rewrite !andb_true_iff. intros [[Hc _] Hr]. by rewrite Hc, IH.
Qed.

Lemma no_space_app (a b : string) : no_space (a +:+ b) = no_space a && no_space b.
Proof.
  induction a as [|c r IH]; [done|].
  rewrite string_app_cons. simpl. rewrite IH. by rewrite andb_assoc.
Qed.

Lemma email_test_no_space (s : string) : Text.email_test s = true -> no_space s = true.
Proof.
  intros (a & b & c & -> & _ & _ & _ & Ha & Hb & Hc)%email_test_sound.
  rewrite !no_space_app.
  by rewrite (all_plain_no_space a Ha), (all_plain_no_space b Hb),
    (all_plain_no_space c Hc).
Qed.

Lemma lower_char_space (c : ascii) : JS.is_space (JS.lower_char c) = JS.is_space c.
Proof. by destruct c as [[] [] [] [] [] [] [] []]. Qed.

Lemma toLowerCase_no_space (s : string) : no_space (JS.toLowerCase s) = no_space s.
Proof.
  induction s as [|c r IH]; [done|]. simpl. by rewrite lower_char_space, IH.
Qed.

Lemma lower_char_idemp (c : ascii) : JS.lower_char (JS.lower_char c) = JS.lower_char c.
Proof. by destruct c as [[] [] [] [] [] [] [] []]. Qed.

Lemma toLowerCase_idemp (s : string) :
  JS.toLowerCase (JS.toLowerCase s) = JS.toLowerCase s.
Proof.
  induction s as [|c r IH]; [done|]. simpl. by rewrite lower_char_idemp, IH.
Qed.

(** ** [/auth/register] *)

Lemma email_taken_spec (e : string) (t : gmap Z row) :
  email_taken e t = true <-> exists (i : Z) (r : row), t !! i = Some r /\ r_email r = e.
Proof.
  unfold email_taken. rewrite existsb_exists. split.
  - intros ([i r] & Hin & He). apply list_elem_of_In, elem_of_map_to_list in Hin.
    apply bool_decide_eq_true in He. by exists i, r.
  - intros (i & r & Hr & He). exists (i, r). split.
    + by apply list_elem_of_In, elem_of_map_to_list.
    + by apply bool_decide_eq_true.
Qed.

Lemma register_spec (w : world) (k : registrar) (req_email req_password : option string)
    (st : state) :
  register w k req_email req_password st =
  match JS.truthy_string req_email, JS.truthy_string req_password with
  | Some addr, Some pw =>
      if bool_decide (Text.utf16_length pw < 8)%nat
      then (Resolved (respond 400 (ErrorBody "Password must be at least 8 characters")), st)
      else if Text.email_test addr then
        let e := JS.trim (JS.toLowerCase addr) in
        if email_taken e (users st) || bool_decide (is_Some (users st !! nextval k))
        then (Resolved (respond 409 (ErrorBody "An account with this email already exists")),
              st)
        else (Resolved (respond 201
                          (UserBody (Some (jwt_sign w (nextval k) e)) (nextval k) e "pro"
                             (JS.Num (JS.Fin 0)) (JS.Num (JS.Fin 1000))
                             (JS.Num (JS.Fin 1000)))),
              set_users (insert (nextval k) (new_row w e (bcrypt_hash k pw))) st)
      else (Resolved (respond 400 (ErrorBody "Invalid email address")), st)
  | _, _ => (Resolved (respond 400 (ErrorBody "Email and password required")), st)
  end.
Proof.
  unfold register.
  destruct (JS.truthy_string req_email) as [addr|]; [|done].
  destruct (JS.truthy_string req_password) as [pw|]; [|done].
  case_bool_decide; [done|].
  destruct (Text.email_test addr); [|done]. simpl.
  unfold mbind, async_bind, insert_user.
  by destruct (email_taken _ _ || _).
Qed.

Lemma truthy_string_Some (v : option string) (s : string) :
  JS.truthy_string v = Some s <-> v = Some s /\ s <> "".
Proof.
  destruct v as [[|c r]|]; simpl; split; try done; try (by intros [? ?]).
  - intros [[= <-] Hne]. done.
  - intros [= <-]. done.
Qed.

Lemma register_rejected (w : world) (k : registrar)
    (req_email req_password : option string) (st st' : state) (resp : response) :
  register w k req_email req_password st = (Resolved resp, st') ->
  status resp <> 201 -> st' = st.
Proof.
  rewrite register_spec.
  destruct (JS.truthy_string req_email) as [addr|]; [|by intros [= <- <-]].
  destruct (JS.truthy_string req_password) as [pw|]; [|by intros [= <- <-]].
  case_bool_decide; [by intros [= <- <-]|].
  destruct (Text.email_test addr); [|by intros [= <- <-]].
  cbv zeta. destruct (_ || _); by intros [= <- <-].
Qed.

Lemma register_201_inv (w : world) (k : registrar)
    (req_email req_password : option string) (st st' : state) (resp : response) :
  register w k req_email req_password st = (Resolved resp, st') ->
  status resp = 201 ->
  exists addr pw : string,
    let e := JS.toLowerCase addr in
    req_email = Some addr /\ req_password = Some pw
    /\ (8 <= Text.utf16_length pw)%nat
    /\ email_shaped addr
    /\ users st !! nextval k = None
    /\ (forall (i : Z) (r : row), users st !! i = Some r -> r_email r <> e)
    /\ users st'
       = <[nextval k := {| r_email := e; r_password_hash := bcrypt_hash k pw;
                           r_plan := "pro"; r_searches_used := 0;
                           r_searches_reset_date := CURRENT_DATE w |}]> (users st)
    /\ calls st' = calls st /\ console st' = console st
    /\ payload resp
       = UserBody (Some (jwt_sign w (nextval k) e)) (nextval k) e "pro"
           (JS.Num (JS.Fin 0)) (JS.Num (JS.Fin 1000)) (JS.Num (JS.Fin 1000)).
Proof.
  rewrite register_spec.
  destruct (JS.truthy_string req_email) as [addr|] eqn:He; [|by intros [= <- <-]].
  destruct (JS.truthy_string req_password) as [pw|] eqn:Hp; [|by intros [= <- <-]].
  case_bool_decide as Hlen; [by intros [= <- <-]|].
  destruct (Text.email_test addr) eqn:Htest; [|by intros [= <- <-]].
  cbv zeta.
  assert (Htrim : JS.trim (JS.toLowerCase addr) = JS.toLowerCase addr).
  { apply trim_no_space. rewrite toLowerCase_no_space. by apply email_test_no_space. }
  rewrite Htrim.
  destruct (email_taken _ _) eqn:Htaken; simpl; [by intros [= <- <-]|].
  case_bool_decide as Hkey; [by intros [= <- <-]|].
  intros [= <- <-] _.
  apply truthy_string_Some in He as [-> _]. apply truthy_string_Some in Hp as [-> _].
  exists addr, pw. cbv zeta. repeat split; try done.
  - lia.
  - by apply email_test_sound.
  - by apply eq_None_not_Some.
  - intros i r Hr Hemail.
    assert (email_taken (JS.toLowerCase addr) (users st) = true) as Hyes
      by (apply email_taken_spec; eauto).
    congruence.
Qed.

(** A registration that is not answered 201 changes nothing. With an
    ASCII email it is answered 201 only when email and password are
    present, the password has at least 8 code units and the email has
    the shape of the pattern;
    the new row then sits under a fresh key, carries the lower-cased
    email, which no other row carries, the hash of the password, plan
    [pro], usage 0 and the date of the store; every other row is as it
    was, and the body reports 0 used of 1000. *)
Theorem register_creates_account (w : world) (k : registrar)
    (req_email req_password : option string) (st st' : state) (resp : response) :
  ascii_only req_email = true ->
  register w k req_email req_password st = (Resolved resp, st') ->
  (status resp <> 201 -> st' = st)
  /\ (status resp = 201 ->
      exists addr pw : string,
        let e := JS.toLowerCase addr in
        req_email = Some addr /\ req_password = Some pw
        /\ (8 <= Text.utf16_length pw)%nat
        /\ email_shaped addr
        /\ users st !! nextval k = None
        /\ (forall (i : Z) (r : row), users st !! i = Some r -> r_email r <> e)
        /\ users st'
           = <[nextval k := {| r_email := e; r_password_hash := bcrypt_hash k pw;
                               r_plan := "pro"; r_searches_used := 0;
                               r_searches_reset_date := CURRENT_DATE w |}]> (users st)
        /\ calls st' = calls st /\ console st' = console st
        /\ payload resp
           = UserBody (Some (jwt_sign w (nextval k) e)) (nextval k) e "pro"
               (JS.Num (JS.Fin 0)) (JS.Num (JS.Fin 1000)) (JS.Num (JS.Fin 1000))).
Proof.
  intros _ Hrun. split.
  - by apply (register_rejected w k req_email req_password).
  - by apply (register_201_inv w k req_email req_password).
Qed.

Lemma register_creates_account_witness :
  exists (resp : response) (st' : state),
    register Sample.austin Fixture.clerk (Some "Jo.Doe@Mail.Example.com") (Some "secret12")
      Sample.no_accounts = (Resolved resp, st')
    /\ status resp = 201
    /\ users st'
       = {[ 7 := {| r_email := "jo.doe@mail.example.com"; r_password_hash := "h:secret12";
                    r_plan := "pro"; r_searches_used := 0;
                    r_searches_reset_date := Sample.feb3 |} ]}.
Proof.
  eexists _, _. split; [vm_compute; reflexivity|]. split; [reflexivity|].
  destruct (proj2 (register_creates_account Sample.austin Fixture.clerk
                     (Some "Jo.Doe@Mail.Example.com") (Some "secret12")
                     Sample.no_accounts _ _ eq_refl eq_refl) eq_refl)
    as (addr & pw & Haddr & Hpw & _ & _ & _ & _ & Husers & _).
  injection Haddr as <-. injection Hpw as <-. exact Husers.
Defined.

(** A valid registration with an ASCII email is answered 409, and
    changes nothing, exactly when some row already carries the lower-cased
    email or the key the sequence delivers is in use. *)
Theorem register_conflict (w : world) (k : registrar) (addr pw : string)
    (st st' : state) (resp : response) :
  ascii_text addr = true ->
  register w k (Some addr) (Some pw) st = (Resolved resp, st') ->
  (8 <= Text.utf16_length pw)%nat ->
  Text.email_test addr = true ->
  (status resp = 409
   <-> (exists (i : Z) (r : row),
          users st !! i = Some r /\ r_email r = JS.toLowerCase addr)
       \/ is_Some (users st !! nextval k))
  /\ (status resp = 409 -> st' = st).
Proof.
  intros _ Hrun Hlen Htest. rewrite register_spec in Hrun.
  assert (Hne : addr <> "") by (by intros ->).
  assert (Hpne : pw <> "") by (intros ->; simpl in Hlen; lia).
  destruct addr as [|a addr']; [done|]. destruct pw as [|p pw']; [done|].
  simpl JS.truthy_string in Hrun. cbv iota in Hrun.
  rewrite bool_decide_eq_false_2 in Hrun by lia. rewrite Htest in Hrun.
  cbv zeta in Hrun.
  rewrite trim_no_space in Hrun
    by (rewrite toLowerCase_no_space; by apply email_test_no_space).
  rewrite <- email_taken_spec.
  destruct (email_taken _ _) eqn:Htaken; simpl in Hrun.
  - injection Hrun as <- <-. split; [|done]. split; [by left|done].
  - case_bool_decide as Hkey; injection Hrun as <- <-.
    + split; [|done]. split; [by right|done].
    + split; [|done]. split; [done|]. intros [?|?]; done.
Qed.

Lemma register_conflict_witness :
  exists (resp : response) (st' : state),
    register Sample.austin Fixture.clerk (Some "A@B.CO") (Some "another-password")
      (Sample.table (Sample.account "pro" 5 Sample.feb3)) = (Resolved resp, st')
    /\ status resp = 409
    /\ st' = Sample.table (Sample.account "pro" 5 Sample.feb3).
Proof.
  eexists _, _. split; [vm_compute; reflexivity|]. split; [reflexivity|].
  refine (proj2 (register_conflict Sample.austin Fixture.clerk "A@B.CO" "another-password"
                   (Sample.table (Sample.account "pro" 5 Sample.feb3)) _ _
                   eq_refl eq_refl _ eq_refl) eq_refl).
  simpl. lia.
Defined.





(** ** Unique emails *)

Lemma emails_unique_backward (t t' : gmap Z row) :
  (forall (k : Z) (r' : row),
      t' !! k = Some r' -> exists r : row, t !! k = Some r /\ r_email r = r_email r') ->
  emails_unique t -> emails_unique t'.
Proof.
  intros Hback Huniq i j ri rj Hi Hj He.
  destruct (Hback i ri Hi) as (ri0 & Hi0 & Hei).
  destruct (Hback j rj Hj) as (rj0 & Hj0 & Hej).
  apply (Huniq i j ri0 rj0 Hi0 Hj0). congruence.
Qed.

Lemma lazy_reset_backward (w : world) (userId k : Z) (t : gmap Z row) (r' : row) :
  lazy_reset w userId t !! k = Some r' ->
  exists r : row, t !! k = Some r /\ r_email r = r_email r'.
Proof.
  destruct (decide (k = userId)) as [->|Hne].
  - rewrite lazy_reset_lookup_eq. destruct (t !! userId) as [r|]; [|done].
    simpl. intros [= <-]. exists r. split; [done|]. by destruct (reset_due _ _).
  - rewrite lazy_reset_lookup_ne by done. eauto.
Qed.

Lemma search_keeps_emails_unique (w : world) (req : Req.t) (st st' : state)
    (resp : response) :
  search w req st = (Resolved resp, st') ->
  emails_unique (users st) -> emails_unique (users st').
Proof.
  intros Hrun. apply emails_unique_backward. intros k r' Hk.
  destruct (search_table w req st st' resp Hrun)
    as [[_ Heq]|(userId & n & _ & _ & _ & Heq)]; rewrite Heq in Hk; [eauto|].
  destruct (decide (k = userId)) as [->|Hne].
  - rewrite lookup_alter_eq in Hk.
    destruct (lazy_reset w userId (users st) !! userId) as [r1|] eqn:Hr1; [|done].
    simpl in Hk. injection Hk as <-.
    destruct (lazy_reset_backward w userId userId (users st) r1 Hr1) as (r & Hr & He).
    by exists r.
  - rewrite lookup_alter_ne in Hk by done.
    by apply (lazy_reset_backward w userId k).
Qed.

Lemma me_table (w : world) (req : Req.t) (st st' : state) (resp : response) :
  me w req st = (Resolved resp, st') ->
  calls st' = calls st /\ users st' = table_after_read w req (users st).
Proof.
  rewrite me_spec. unfold table_after_read.
  destruct (verifyToken w req) as [userId|]; [|by intros [= <- <-]].
  destruct (read_user w userId (users st)); by intros [= <- <-].
Qed.

Lemma me_keeps_emails_unique (w : world) (req : Req.t) (st st' : state) (resp : response) :
  me w req st = (Resolved resp, st') ->
  emails_unique (users st) -> emails_unique (users st').
Proof.
  intros Hrun. apply emails_unique_backward. intros k r' Hk.
  destruct (me_table w req st st' resp Hrun) as [_ Heq].
  rewrite Heq in Hk. unfold table_after_read in Hk.
  destruct (verifyToken w req) as [userId|]; [|eauto].
  by apply (lazy_reset_backward w userId k).
Qed.

Lemma login_table (w : world) (e p : option string) (st st' : state) (resp : response) :
  login w e p st = (Resolved resp, st') ->
  calls st' = calls st
  /\ (users st' = users st \/ exists i : Z, users st' = lazy_reset w i (users st)).
Proof.
  rewrite login_spec.
  destruct (JS.truthy_string e) as [addr|]; [|intros [= <- <-]; by split; [|left]].
  destruct (JS.truthy_string p) as [pw|]; [|intros [= <- <-]; by split; [|left]].
  destruct (find_by_email _ _) as [u|] eqn:Hfind;
    [|intros [= <- <-]; by split; [|left]].
  destruct (find_by_email_row _ _ u Hfind) as (i & r & Hr & _ & ->).
  destruct (bcrypt_compare w pw _); [|intros [= <- <-]; by split; [|left]].
  cbv zeta. pose proof (login_reset_table w i r st Hr) as Htable.
  destruct (reset_due (now w) (searches_reset_date (user_of_row i r))) eqn:Hdue;
    simpl in Hdue; rewrite Hdue in Htable; intros [= <- <-].
  - split; [done|]. right. by exists i.
  - split; [done|]. by left.
Qed.

Lemma login_keeps_emails_unique (w : world) (e p : option string) (st st' : state)
    (resp : response) :
  login w e p st = (Resolved resp, st') ->
  emails_unique (users st) -> emails_unique (users st').
Proof.
  intros Hrun. apply emails_unique_backward. intros k r' Hk.
  destruct (login_table w e p st st' resp Hrun) as [_ [Heq|[i Heq]]];
    rewrite Heq in Hk; [eauto|].
  by apply (lazy_reset_backward w i k).
Qed.

Lemma register_keeps_emails_unique (w : world) (k : registrar) (e p : option string)
    (st st' : state) (resp : response) :
  register w k e p st = (Resolved resp, st') ->
  emails_unique (users st) -> emails_unique (users st').
Proof.
  intros Hrun Huniq.
  destruct (decide (status resp = 201)) as [H201|Hfail];
    [|by rewrite (register_rejected w k e p st st' resp Hrun Hfail)].
  destruct (register_201_inv w k e p st st' resp Hrun H201)
    as (addr & pw & _ & _ & _ & _ & Hfresh & Hother & Heq & _).
  cbv zeta in *. rewrite Heq. intros i j ri rj Hi Hj He.
  destruct (decide (i = nextval k)) as [->|Hi'], (decide (j = nextval k)) as [->|Hj'];
    try done.
  - rewrite lookup_insert_eq in Hi. rewrite lookup_insert_ne in Hj by done.
    injection Hi as <-. simpl in He. by destruct (Hother j rj Hj).
  - rewrite lookup_insert_eq in Hj. rewrite lookup_insert_ne in Hi by done.
    injection Hj as <-. simpl in He. by destruct (Hother i ri Hi).
  - rewrite lookup_insert_ne in Hi, Hj by done. by apply (Huniq i j ri rj).
Qed.

Lemma lazy_reset_dom (w : world) (userId : Z) (t : gmap Z row) :
  dom (lazy_reset w userId t) = dom t.
Proof.
  apply set_eq. intros k. rewrite !elem_of_dom.
  destruct (decide (k = userId)) as [->|Hne].
  - rewrite lazy_reset_lookup_eq. by rewrite fmap_is_Some.
  - by rewrite lazy_reset_lookup_ne.
Qed.

Lemma search_dom (w : world) (req : Req.t) (st st' : state) (resp : response) :
  search w req st = (Resolved resp, st') -> dom (users st') = dom (users st).
Proof.
  intros Hrun.
  destruct (search_table w req st st' resp Hrun)
    as [[_ ->]|(userId & n & _ & _ & _ & ->)]; [done|].
  rewrite <- (lazy_reset_dom w userId (users st)).
  apply set_eq. intros k. rewrite !elem_of_dom.
  destruct (decide (k = userId)) as [->|Hne].
  - rewrite lookup_alter_eq. by rewrite fmap_is_Some.
  - by rewrite lookup_alter_ne.
Qed.

(** ** The request listener *)

Lemma json_bind_inv (h : async response) (st st' : state) (rep : Http.reply) :
  (r ← h; mret (Http.Json r)) st = (Resolved rep, st') ->
  exists r : response, h st = (Resolved r, st') /\ rep = Http.Json r.
Proof.
  unfold mbind, async_bind, mret, async_ret.
  destruct (h st) as [[r|e] st0]; [|done]. intros [= <- <-]. by exists r.
Qed.

(** What the listener ran, by route. *)
Lemma listener_inv (w : world) (k : registrar) (rq : Http.request) (st st' : state)
    (rep : Http.reply) :
  Http.listener w k rq st = (Resolved rep, st') ->
  (Http.method rq = "OPTIONS" /\ rep = Http.Preflight /\ st' = st)
  \/ (Http.method rq <> "OPTIONS"
      /\ ((rep = Http.Liveness /\ st' = st)
          \/ (rep = Http.Json (respond 404 (ErrorBody "Not found")) /\ st' = st)
          \/ (exists r : response,
                Http.pathname rq = "/auth/register" /\ Http.method rq = "POST"
                /\ rep = Http.Json r
                /\ register w k (Http.body_email rq) (Http.body_password rq) st
                   = (Resolved r, st'))
          \/ (exists r : response,
                Http.pathname rq = "/auth/login" /\ Http.method rq = "POST"
                /\ rep = Http.Json r
                /\ login w (Http.body_email rq) (Http.body_password rq) st
                   = (Resolved r, st'))
          \/ (exists r : response,
                Http.pathname rq = "/auth/me" /\ Http.method rq = "GET"
                /\ rep = Http.Json r /\ me w (Http.query rq) st = (Resolved r, st'))
          \/ (exists r : response,
                Http.pathname rq = "/search"
                /\ rep = Http.Json r /\ search w (Http.query rq) st = (Resolved r, st')))).
Proof.
  unfold Http.listener.
  case_decide as Hopt; [intros [= <- <-]; by left|]. intros Hrun. right. split; [done|].
  case_decide; [injection Hrun as <- <-; by left|].
  case_decide as Hreg.
  { apply json_bind_inv in Hrun as (r & Hr & ->). destruct Hreg.
    right; right; left. by exists r. }
  case_decide as Hlog.
  { apply json_bind_inv in Hrun as (r & Hr & ->). destruct Hlog.
    do 3 right; left. by exists r. }
  case_decide as Hme.
  { apply json_bind_inv in Hrun as (r & Hr & ->). destruct Hme.
    do 4 right; left. by exists r. }
  case_decide as Hsearch.
  { apply json_bind_inv in Hrun as (r & Hr & ->). do 5 right. by exists r. }
  injection Hrun as <- <-. right; by left.
Qed.

(** Whatever the request, the listener keeps the emails of the table
    pairwise distinct. *)
Theorem listener_keeps_emails_unique (w : world) (k : registrar) (rq : Http.request)
    (st st' : state) (rep : Http.reply) :
  Http.listener w k rq st = (Resolved rep, st') ->
  emails_unique (users st) ->
  emails_unique (users st').
Proof.
  intros Hrun Huniq.
  destruct (listener_inv w k rq st st' rep Hrun)
    as [(_ & _ & ->)|(_ & [(_ & ->)|[(_ & ->)|[(r & _ & _ & _ & Hr)|[(r & _ & _ & _ & Hr)
        |[(r & _ & _ & _ & Hr)|(r & _ & _ & Hr)]]]]])]; try done.
  - by apply (register_keeps_emails_unique w k _ _ st st' r Hr).
  - by apply (login_keeps_emails_unique w _ _ st st' r Hr).
  - by apply (me_keeps_emails_unique w _ st st' r Hr).
  - by apply (search_keeps_emails_unique w _ st st' r Hr).
Qed.

(** What the listener never does: it never removes a row; it adds one
    only for a [POST /auth/register] answered 201; it calls the provider
    only for [/search]; and an [OPTIONS] request, whatever its path, runs
    no handler at all. *)
Theorem listener_effects (w : world) (k : registrar) (rq : Http.request)
    (st st' : state) (rep : Http.reply) :
  Http.listener w k rq st = (Resolved rep, st') ->
  dom (users st) ⊆ dom (users st')
  /\ (dom (users st') <> dom (users st) ->
      Http.pathname rq = "/auth/register" /\ Http.method rq = "POST"
      /\ Http.code rep = 201)
  /\ (calls st' <> calls st ->
      Http.pathname rq = "/search" /\ Http.method rq <> "OPTIONS")
  /\ (Http.method rq = "OPTIONS" -> rep = Http.Preflight /\ st' = st).
Proof.
  intros Hrun.
  destruct (listener_inv w k rq st st' rep Hrun)
    as [(Hopt & -> & ->)|(Hopt & [(_ & ->)|[(_ & ->)|[(r & Hpath & Hmeth & -> & Hr)
        |[(r & _ & _ & -> & Hr)|[(r & _ & _ & -> & Hr)|(r & Hpath & -> & Hr)]]]]])];
    try (by repeat split).
  - (* register *)
    destruct (decide (status r = 201)) as [H201|Hfail].
    + destruct (register_201_inv w k _ _ st st' r Hr H201)
        as (addr & pw & _ & _ & _ & _ & _ & _ & Heq & Hcalls & _).
      cbv zeta in Heq. rewrite Heq, Hcalls. rewrite dom_insert_L.
      split; [apply union_subseteq_r|]. by repeat split.
    + rewrite (register_rejected w k _ _ st st' r Hr Hfail). by repeat split.
  - (* login *)
    destruct (login_table w _ _ st st' r Hr) as [Hcalls Husers].
    assert (Hdom : dom (users st') = dom (users st)).
    { destruct Husers as [->|[i ->]]; [done | apply lazy_reset_dom]. }
    rewrite Hdom, Hcalls. by repeat split.
  - (* me *)
    destruct (me_table w _ st st' r Hr) as [Hcalls Heq].
    assert (Hdom : dom (users st') = dom (users st)).
    { rewrite Heq. unfold table_after_read.
      destruct (verifyToken w (Http.query rq)); [apply lazy_reset_dom | done]. }
    rewrite Hdom, Hcalls. by repeat split.
  - (* search *)
    rewrite (search_dom w _ st st' r Hr). by repeat split.
Qed.

Lemma listener_effects_witness :
  exists (rep : Http.reply) (st' : state),
    Http.listener Sample.austin Fixture.clerk
      {| Http.method := "OPTIONS"; Http.pathname := "/search";
         Http.query := Sample.request "Austin" "10";
         Http.body_email := None; Http.body_password := None |}
      (Sample.table (Sample.account "pro" 5 Sample.feb3)) = (Resolved rep, st')
    /\ rep = Http.Preflight
    /\ st' = Sample.table (Sample.account "pro" 5 Sample.feb3).
Proof.
  eexists _, _. split; [vm_compute; reflexivity|].
  exact (proj2 (proj2 (proj2
           (listener_effects Sample.austin Fixture.clerk
              {| Http.method := "OPTIONS"; Http.pathname := "/search";
                 Http.query := Sample.request "Austin" "10";
                 Http.body_email := None; Http.body_password := None |}
              (Sample.table (Sample.account "pro" 5 Sample.feb3)) _ _ eq_refl)))
           eq_refl).
Defined.

Lemma listener_keeps_emails_unique_witness :
  exists (rep : Http.reply) (st' : state),
    Http.listener Sample.austin Fixture.clerk
      {| Http.method := "POST"; Http.pathname := "/auth/register";
         Http.query := Sample.request "Austin" "10";
         Http.body_email := Some "a@b.co"; Http.body_password := Some "secret12" |}
      Sample.no_accounts = (Resolved rep, st')
    /\ Http.code rep = 201
    /\ emails_unique (users st').
Proof.
  eexists _, _. split; [vm_compute; reflexivity|]. split; [reflexivity|].
  refine (listener_keeps_emails_unique Sample.austin Fixture.clerk
            {| Http.method := "POST"; Http.pathname := "/auth/register";
               Http.query := Sample.request "Austin" "10";
               Http.body_email := Some "a@b.co"; Http.body_password := Some "secret12" |}
            Sample.no_accounts _ _ eq_refl _).
  intros i j ri rj Hi. unfold Sample.no_accounts in Hi. simpl in Hi.
  by rewrite lookup_empty in Hi.
Defined.

(** ** The server without accounts *)

Lemma legacy_search_spec (w : world) (req : Req.t) (st : state) :
  Legacy.search w req st =
  let limit := JS.parseInt (JS.or_string (Req.limit req) "10") in
  match geocode_reply w (location_of req) with
  | Rejected e =>
      (Resolved {| Legacy.status := 500; Legacy.payload := Legacy.Error (message e) |},
       log_calls [Geocode (location_of req)] st)
  | Resolved geoData =>
      match head (default [] (Geo.results geoData)) with
      | None =>
          (Resolved {| Legacy.status := 404;
                       Legacy.payload := Legacy.Error "Location not found" |},
           log_calls [Geocode (location_of req)] st)
      | Some loc =>
          let c := TextSearch (type_of req) (Geo.lat loc) (Geo.lng loc) in
          match textsearch_reply w (type_of req) (Geo.lat loc) (Geo.lng loc) with
          | Rejected e =>
              (Resolved {| Legacy.status := 500;
                           Legacy.payload := Legacy.Error (message e) |},
               log_calls [Geocode (location_of req); c] st)
          | Resolved placesData =>
              let places := JS.slice0 (default [] (Place.results placesData)) limit in
              (Resolved {| Legacy.status := 200;
                           Legacy.payload :=
                             Legacy.Results (leads_of w (details_of req) places) |},
               log_calls ([Geocode (location_of req); c]
                          ++ (if details_of req then detail_calls places else [])) st)
          end
      end
  end.
Proof.
  unfold Legacy.search, try_catch, mbind, async_bind at 1, googleGet at 1.
  fold (location_of req). fold (type_of req). fold (details_of req). cbv zeta.
  destruct (geocode_reply w (location_of req)) as [geoData|e]; [|done].
  destruct (head (default [] (Geo.results geoData))) as [loc|]; [|done].
  unfold async_bind at 1, googleGet.
  destruct (textsearch_reply w (type_of req) (Geo.lat loc) (Geo.lng loc)) as [pd|e].
  - unfold async_bind at 1. destruct (details_of req).
    + rewrite enrich_from_spec. unfold mret, async_ret, leads_of, log_calls. simpl.
      by rewrite <- !app_assoc.
    + unfold mret, async_ret, leads_of, log_calls. simpl.
      by rewrite <- ?app_assoc, ?app_nil_r.
  - unfold log_calls. simpl. by rewrite <- !app_assoc.
Qed.

(** For a request the quota server admits and whose [limit] is an ASCII
    text that, when it parses, gives at most 25, the quota server answers
    what the
    server without accounts answers (same status, same leads or error
    message) after the same provider calls; the older server leaves the
    table and the console alone. *)
Theorem search_agrees_with_legacy (w : world) (req : Req.t) (st st1 : state)
    (userId : Z) (u : user) :
  ascii_only (Req.limit req) = true ->
  verifyToken w req = Some userId ->
  getUser w userId st = (Resolved (Some u), st1) ->
  quota_exceeded (PLAN_LIMITS (plan u)) (searches_used u) (limit_of req) = false ->
  (forall z : Z, JS.parseInt (JS.or_string (Req.limit req) "10") = JS.Fin z -> z <= 25) ->
  exists (old : Legacy.response) (sto : state) (new : response) (stn : state),
    Legacy.search w req st = (Resolved old, sto)
    /\ search w req st = (Resolved new, stn)
    /\ same_answer old new
    /\ calls sto = calls stn
    /\ users sto = users st /\ console sto = console st.
Proof.
  intros _ Hv Hload Hq Hsmall. apply getUser_read in Hload as [Hu _].
  assert (Hlim : JS.parseInt (JS.or_string (Req.limit req) "10") = limit_of req).
  { unfold limit_of, clamp_limit.
    destruct (parseInt_finite (JS.or_string (Req.limit req) "10")) as [->|[z Hz]];
      [done|].
    rewrite Hz. simpl. f_equal. specialize (Hsmall z Hz). lia. }
  rewrite legacy_search_spec, search_spec, Hv. cbv zeta. rewrite Hu, Hq, Hlim.
  rewrite search_pipeline_spec.
  destruct (geocode_reply w (location_of req)) as [geoData|e];
    [|eexists _, _, _, _; by repeat split].
  destruct (head (default [] (Geo.results geoData))) as [loc|];
    [|eexists _, _, _, _; by repeat split].
  destruct (textsearch_reply w (type_of req) (Geo.lat loc) (Geo.lng loc)) as [pd|e];
    eexists _, _, _, _; by repeat split.
Qed.

Lemma search_agrees_with_legacy_witness :
  exists (old : Legacy.response) (sto : state) (new : response) (stn : state),
    Legacy.search Sample.austin (Sample.request "Austin" "10")
      (Sample.table (Sample.account "pro" 5 Sample.feb3)) = (Resolved old, sto)
    /\ search Sample.austin (Sample.request "Austin" "10")
         (Sample.table (Sample.account "pro" 5 Sample.feb3)) = (Resolved new, stn)
    /\ same_answer old new
    /\ calls sto = calls stn
    /\ users sto = users (Sample.table (Sample.account "pro" 5 Sample.feb3))
    /\ console sto = console (Sample.table (Sample.account "pro" 5 Sample.feb3)).
Proof.
  refine (search_agrees_with_legacy Sample.austin (Sample.request "Austin" "10")
            (Sample.table (Sample.account "pro" 5 Sample.feb3))
            (Sample.table (Sample.account "pro" 5 Sample.feb3))
            7 (user_of_row 7 (Sample.account "pro" 5 Sample.feb3))
            eq_refl eq_refl eq_refl eq_refl _).
  intros z Hz. vm_compute in Hz. injection Hz as <-. lia.
Defined.

(** Without the ceiling the older server returns as many leads as asked:
    30 of the 40 candidates of a provider that has 40. *)
Example legacy_has_no_ceiling :
  let forty := {| Place.results := Some (replicate 40 Sample.ace) |} in
  let w := {| jwt_verify := jwt_verify Sample.austin;
              jwt_sign := jwt_sign Sample.austin;
              bcrypt_compare := bcrypt_compare Sample.austin;
              now := Sample.feb3; CURRENT_DATE := Sample.feb3;
              geocode_reply := geocode_reply Sample.austin;
              textsearch_reply := fun _ _ _ => Resolved forty;
              details_reply := fun _ _ => Rejected Sample.enotfound |} in
  exists (old : Legacy.response) (sto : state) (l : list Lead.t)
         (new : response) (stn : state) (l' : list Lead.t) (a b c : JS.value),
    Legacy.search w (Sample.request "Austin" "30") Sample.no_accounts = (Resolved old, sto)
    /\ Legacy.payload old = Legacy.Results l /\ length l = 30%nat
    /\ search w (Sample.request "Austin" "30")
         (Sample.table (Sample.account "pro" 5 Sample.feb3)) = (Resolved new, stn)
    /\ payload new = SearchBody l' a b c /\ length l' = 25%nat.
Proof.
  eexists _, _, _, _, _, _, _, _, _.
  split; [vm_compute; reflexivity|]. split; [reflexivity|]. split; [reflexivity|].
  split; [vm_compute; reflexivity|]. split; reflexivity.
Qed.

(** ** Reading an account twice *)

(** When the two clocks agree on the month, a second read of an account
    changes nothing and sees the same plan and counter, and the row a
    read leaves is not due for a reset. *)
Theorem second_read_changes_nothing (w : world) (userId : Z) (st st1 : state)
    (o : option user) :
  reset_due (now w) (CURRENT_DATE w) = false ->
  getUser w userId st = (Resolved o, st1) ->
  exists o' : option user,
    getUser w userId st1 = (Resolved o', st1)
    /\ same_account o o'
    /\ forall u' : user, o' = Some u' -> reset_due (now w) (searches_reset_date u') = false.
Proof.
  intros Hclock Hread. apply getUser_read in Hread as [<- ->].
  rewrite getUser_spec. eexists. split; [|split].
  - f_equal. apply set_users_same. simpl. by rewrite lazy_reset_idemp.
  - simpl. apply read_user_after_reset.
  - simpl. unfold read_user. rewrite lazy_reset_lookup_eq.
    destruct (users st !! userId) as [r|]; [|done]. simpl.
    intros u' [= <-].
    destruct (reset_due (now w) (r_searches_reset_date r)) eqn:Hdue; simpl.
    + by rewrite Hclock.
    + by rewrite Hdue.
Qed.

Lemma second_read_changes_nothing_witness :
  exists (o : option user) (st1 : state) (o' : option user),
    getUser Sample.austin 7
      (Sample.table (Sample.account "pro" 5 {| year := 2024; month := 1; day := 15 |}))
    = (Resolved o, st1)
    /\ stored_used st1 7 = Some 0
    /\ getUser Sample.austin 7 st1 = (Resolved o', st1)
    /\ same_account o o'.
Proof.
  eexists _, _.
  destruct (second_read_changes_nothing Sample.austin 7
              (Sample.table
                 (Sample.account "pro" 5 {| year := 2024; month := 1; day := 15 |}))
              _ _ eq_refl eq_refl) as (o' & Hread & Hsame & _).
  exists o'. split; [vm_compute; reflexivity|]. split; [by vm_compute|].
  split; [exact Hread | exact Hsame].
Defined.

(** ** [enc] *)

Lemma list_ascii_app (a b : string) :
  String.list_ascii_of_string (a +:+ b) = String.list_ascii_of_string a ++ String.list_ascii_of_string b.
Proof.
  induction a as [|c r IH]; [done|]. rewrite string_app_cons. simpl. by rewrite IH.
Qed.

Lemma hex_digit_unreserved (m : nat) :
  (m < 16)%nat -> Text.unreserved (Text.hex_digit m) = true.
Proof.
  intros Hm. do 16 (destruct m as [|m]; [reflexivity|]). lia.
Qed.

(** What [enc] puts in a path is made of letters, digits, the marks
    [- _ . ! ~ * ' ( )] and ["%"] only, so a location or a type never
    brings an ["&"], ["="], ["?"], ["#"], ["/"], ["+"] or a space into the
    query; and a text made of letters, digits and marks is sent as it
    is. *)
Theorem enc_output_safe (s : string) :
  (forall c : ascii,
      c ∈ String.list_ascii_of_string (enc s) ->
      (Text.unreserved c = true \/ c = "%"%char)
      /\ c ∉ ["&"; "="; "?"; "#"; "/"; "+"; " "]%char)
  /\ (forallb Text.unreserved (String.list_ascii_of_string s) = true -> enc s = s).
Proof.
  assert (Hsafe : forall c : ascii,
             c ∈ String.list_ascii_of_string (enc s) ->
             Text.unreserved c = true \/ c = "%"%char).
  { unfold enc. induction s as [|x r IH]; intros c; simpl; [by intros ?%elem_of_nil|].
    rewrite list_ascii_app, elem_of_app. intros [Hc|Hc]; [|by apply IH].
    destruct (Text.unreserved x) eqn:Hx.
    - cbn [String.list_ascii_of_string] in Hc.
      apply list_elem_of_singleton in Hc as ->. by left.
    - unfold Text.percent in Hc. cbv zeta in Hc.
      cbn [String.list_ascii_of_string] in Hc.
      pose proof (nat_ascii_bounded x) as Hb.
      rewrite !elem_of_cons, elem_of_nil in Hc.
      destruct Hc as [->|[->|[->|[]]]]; [by right| |]; left; apply hex_digit_unreserved.
      + apply Nat.Div0.div_lt_upper_bound. lia.
      + by apply Nat.mod_upper_bound. }
  split.
  - intros c Hc. split; [by apply Hsafe|].
    destruct (Hsafe c Hc) as [Hu| ->].
    + rewrite !elem_of_cons, elem_of_nil.
      intros [->|[->|[->|[->|[->|[->|[->|[]]]]]]]]; discriminate Hu.
    + rewrite !elem_of_cons, elem_of_nil. intuition discriminate.
  - clear Hsafe. unfold enc. induction s as [|x r IH]; [done|]. simpl.
    intros [Hx Hr]%andb_true_iff. by rewrite Hx, IH.
Qed.

Example enc_location : enc "São Paulo & Co" = "S%C3%A3o%20Paulo%20%26%20Co".
Proof. reflexivity. Qed.

(** ** Decimal counts *)








(** ** Order of the leads, and a provider without details *)

Lemma lead_at_summary_fields (w : world) (i : nat) (p : Place.t) :
  Lead.placeId (lead_at w i p) = Place.place_id p
  /\ Lead.businessName (lead_at w i p) = Place.name p
  /\ Lead.rating (lead_at w i p) = JS.truthy_float (Place.rating p).
Proof. unfold lead_at. by destruct (details_reply w i (Place.place_id p)). Qed.

Lemma leads_from_fields (w : world) (places : list Place.t) :
  forall i : nat,
    Lead.placeId <$> leads_from w i places = Place.place_id <$> places
    /\ Lead.businessName <$> leads_from w i places = Place.name <$> places
    /\ Lead.rating <$> leads_from w i places
       = (fun p => JS.truthy_float (Place.rating p)) <$> places.
Proof.
  induction places as [|p ps IH]; intros i; [done|].
  destruct (IH (S i)) as (Hid & Hname & Hrating).
  destruct (lead_at_summary_fields w i p) as (Hid0 & Hname0 & Hrating0).
  cbn [leads_from]. rewrite !fmap_cons, Hid, Hname, Hrating, Hid0, Hname0, Hrating0.
  done.
Qed.

Lemma leads_of_fields (w : world) (details : bool) (places : list Place.t) :
  Lead.placeId <$> leads_of w details places = Place.place_id <$> places
  /\ Lead.businessName <$> leads_of w details places = Place.name <$> places
  /\ Lead.rating <$> leads_of w details places
     = (fun p => JS.truthy_float (Place.rating p)) <$> places.
Proof.
  destruct details; simpl; [apply leads_from_fields|].
  rewrite <- !list_fmap_compose. done.
Qed.

(** The leads of a 200 are the first candidates of the provider, in the
    provider's order: enrichment never reorders, drops or renames them,
    and place id, name and rating always come from the text search. *)
Theorem leads_follow_provider_order (w : world) (req : Req.t) (st st' : state)
    (resp : response) (results : list Lead.t) (used remaining limit : JS.value) :
  search w req st = (Resolved resp, st') ->
  payload resp = SearchBody results used remaining limit ->
  exists (loc : Geo.location) (placesData : Place.payload) (n : nat),
    let first := take n (default [] (Place.results placesData)) in
    textsearch_reply w (type_of req) (Geo.lat loc) (Geo.lng loc) = Resolved placesData
    /\ Lead.placeId <$> results = Place.place_id <$> first
    /\ Lead.businessName <$> results = Place.name <$> first
    /\ Lead.rating <$> results = (fun p => JS.truthy_float (Place.rating p)) <$> first.
Proof.
  intros Hrun Hbody.
  assert (H200 : status resp = 200).
  { apply search_path_of_run in Hrun. destruct Hrun; try discriminate Hbody. done. }
  destruct (search_200_inv w req st st' resp Hrun H200)
    as (userId & u & geoData & loc & pd & _ & _ & _ & Ht & -> & _).
  simpl in Hbody. injection Hbody as <- _ _ _.
  exists loc, pd. eexists. cbv zeta. split; [done|].
  apply (leads_of_fields w (details_of req)).
Qed.

Lemma leads_follow_provider_order_witness :
  exists (resp : response) (st' : state) (results : list Lead.t)
         (used remaining limit : JS.value),
    search Sample.austin (Sample.request "Austin" "2")
      (Sample.table (Sample.account "pro" 5 Sample.feb3)) = (Resolved resp, st')
    /\ payload resp = SearchBody results used remaining limit
    /\ exists (loc : Geo.location) (placesData : Place.payload) (n : nat),
         let first := take n (default [] (Place.results placesData)) in
         textsearch_reply Sample.austin "plumber" (Geo.lat loc) (Geo.lng loc)
         = Resolved placesData
         /\ Lead.placeId <$> results = Place.place_id <$> first
         /\ Lead.businessName <$> results = Place.name <$> first
         /\ Lead.rating <$> results
            = (fun p => JS.truthy_float (Place.rating p)) <$> first.
Proof.
  eexists _, _, _, _, _, _. split; [vm_compute; reflexivity|]. split; [reflexivity|].
  exact (leads_follow_provider_order Sample.austin (Sample.request "Austin" "2")
           (Sample.table (Sample.account "pro" 5 Sample.feb3)) _ _ _ _ _ _
           eq_refl eq_refl).
Defined.

Lemma leads_from_outage (w : world) (places : list Place.t) :
  (forall (i : nat) (pid : option string), exists e : error, details_reply w i pid = Rejected e) ->
  forall i : nat, leads_from w i places = summary <$> places.
Proof.
  intros Hout. induction places as [|p ps IH]; intros i; [done|].
  simpl. rewrite IH. unfold lead_at.
  by destruct (Hout i (Place.place_id p)) as [e ->].
Qed.

(** When every detail lookup fails, a request with details on is
    answered exactly as the same request with [details=false], and leaves
    the same table: the outage costs the contact details, nothing else. *)
Theorem detail_outage_degrades_to_bare (w : world) (req req' : Req.t) (st : state) :
  (forall (i : nat) (pid : option string), exists e : error, details_reply w i pid = Rejected e) ->
  Req.authorization req' = Req.authorization req ->
  Req.type req' = Req.type req ->
  Req.location req' = Req.location req ->
  Req.limit req' = Req.limit req ->
  Req.details req' = Some "false" ->
  (search w req st).1 = (search w req' st).1
  /\ users (search w req st).2 = users (search w req' st).2.
Proof.
  intros Hout Hauth Htype Hloc Hlim Hoff.
  assert (Hv : verifyToken w req' = verifyToken w req)
    by (unfold verifyToken; by rewrite Hauth).
  assert (Hty : type_of req' = type_of req) by (unfold type_of; by rewrite Htype).
  assert (Hlo : location_of req' = location_of req)
    by (unfold location_of; by rewrite Hloc).
  assert (Hli : limit_of req' = limit_of req) by (unfold limit_of; by rewrite Hlim).
  assert (Hdet : details_of req' = false) by (unfold details_of; by rewrite Hoff).
  rewrite !search_spec, Hv, Hty, Hlo, Hli.
  destruct (verifyToken w req) as [userId|]; [|done]. cbv zeta.
  destruct (read_user w userId (users st)) as [u|]; [|done].
  destruct (quota_exceeded _ _ _); [done|].
  rewrite !search_pipeline_spec, Hdet.
  destruct (geocode_reply w (location_of req)) as [geoData|e]; [|done].
  destruct (head (default [] (Geo.results geoData))) as [loc|]; [|done].
  destruct (textsearch_reply w (type_of req) (Geo.lat loc) (Geo.lng loc)) as [pd|e];
    [|done].
  cbv zeta. unfold leads_of.
  destruct (details_of req); [|done].
  by rewrite leads_from_outage.
Qed.

Lemma detail_outage_degrades_to_bare_witness :
  (search Sample.offline (Sample.request "Austin" "10")
     (Sample.table (Sample.account "pro" 5 Sample.feb3))).1
  = (search Sample.offline (Fixture.bare_request "Austin" "10")
       (Sample.table (Sample.account "pro" 5 Sample.feb3))).1.
Proof.
  refine (proj1 (detail_outage_degrades_to_bare Sample.offline
                   (Sample.request "Austin" "10") (Fixture.bare_request "Austin" "10")
                   (Sample.table (Sample.account "pro" 5 Sample.feb3))
                   _ eq_refl eq_refl eq_refl eq_refl eq_refl)).
  intros i pid. by exists Sample.enotfound.
Defined.

(** ** The geocode path *)

Lemma hex_digit_inj (a b : nat) :
  (a < 16)%nat -> (b < 16)%nat -> Text.hex_digit a = Text.hex_digit b -> a = b.
Proof.
  intros Ha Hb Heq. apply (f_equal nat_of_ascii) in Heq. unfold Text.hex_digit in Heq.
  repeat case_bool_decide; rewrite !nat_ascii_embedding in Heq by lia; lia.
Qed.

Lemma percent_inj (c c' : ascii) : Text.percent c = Text.percent c' -> c = c'.
Proof.
  unfold Text.percent. cbv zeta.
  pose proof (nat_ascii_bounded c) as Hc. pose proof (nat_ascii_bounded c') as Hc'.
  pose proof (Nat.div_mod (nat_of_ascii c) 16 ltac:(lia)) as Hdm.
  pose proof (Nat.div_mod (nat_of_ascii c') 16 ltac:(lia)) as Hdm'.
  pose proof (Nat.mod_upper_bound (nat_of_ascii c) 16 ltac:(lia)) as Hlt.
  pose proof (Nat.mod_upper_bound (nat_of_ascii c') 16 ltac:(lia)) as Hlt'.
  remember (nat_of_ascii c / 16)%nat as hi. remember (nat_of_ascii c mod 16)%nat as lo.
  remember (nat_of_ascii c' / 16)%nat as hi'. remember (nat_of_ascii c' mod 16)%nat as lo'.
  intros [= Hhi Hlo].
  apply hex_digit_inj in Hhi; [|lia..]. apply hex_digit_inj in Hlo; [|lia..].
  rewrite <- (ascii_nat_embedding c), <- (ascii_nat_embedding c'). f_equal. lia.
Qed.

Lemma encodeURIComponent_inj (s s' : string) :
  Text.encodeURIComponent s = Text.encodeURIComponent s' -> s = s'.
Proof.
  revert s'. induction s as [|c r IH]; intros [|c' r']; cbn [Text.encodeURIComponent].
  - done.
  - destruct (Text.unreserved c'); unfold Text.percent; cbv zeta;
      rewrite !string_app_cons; discriminate.
  - destruct (Text.unreserved c); unfold Text.percent; cbv zeta;
      rewrite !string_app_cons; discriminate.
  - destruct (Text.unreserved c) eqn:Hc, (Text.unreserved c') eqn:Hc'.
    + rewrite !string_app_cons, !string_app_empty_l. intros [= -> Hr]. f_equal. by apply IH.
    + unfold Text.percent. cbv zeta. rewrite !string_app_cons, !string_app_empty_l.
      intros [= -> _]. discriminate Hc.
    + unfold Text.percent. cbv zeta. rewrite !string_app_cons, !string_app_empty_l.
      intros [= <- _]. discriminate Hc'.
    + intros Heq.
      assert (Hp : Text.percent c = Text.percent c'
                   /\ Text.encodeURIComponent r = Text.encodeURIComponent r').
      { unfold Text.percent in *. cbv zeta in *.
        rewrite !string_app_cons, !string_app_empty_l in Heq.
        injection Heq as Hhi Hlo Hr. split; [|exact Hr].
        exact (f_equal2 (fun a b : ascii => String "%" (String a (String b ""))) Hhi Hlo). }
      destruct Hp as [Hp Hr]. f_equal; [by apply percent_inj | by apply IH].
Qed.

Lemma string_app_inv_tail (a b t : string) : a +:+ t = b +:+ t -> a = b.
Proof.
  intros Heq. apply (f_equal String.list_ascii_of_string) in Heq.
  rewrite !list_ascii_app in Heq. apply app_inv_tail in Heq.
  rewrite <- (String.string_of_list_ascii_of_string a),
          <- (String.string_of_list_ascii_of_string b).
  by rewrite Heq.
Qed.

(** The encoding loses nothing: two requests are sent to the geocoder
    under the same path only when their locations are the same text. *)
Theorem geocode_path_injective (GOOGLE_API_KEY location location' : string) :
  geocode_path GOOGLE_API_KEY location = geocode_path GOOGLE_API_KEY location' ->
  location = location'.
Proof.
  unfold geocode_path, enc. intros Heq.
  apply (inj (String.app _)) in Heq.
  apply string_app_inv_tail in Heq.
  by apply encodeURIComponent_inj.
Qed.

Lemma geocode_path_injective_witness :
  geocode_path "k" "New York" = "/maps/api/geocode/json?address=New%20York&key=k"
  /\ "New York" = "New York".
Proof.
  split; [reflexivity|].
  exact (geocode_path_injective "k" "New York" "New York" eq_refl).
Defined.
